(** * js-3d-model-viewer: the viewer session of [src/index.js]

    A shallow embedding of the current [index.js] (the file that imports
    [three-obj-mtl-loader]): scene preparation, asset loading with its three
    loader callbacks, the camera fit and scene clearing.

    JavaScript objects are shared and mutated in place, so the scene graph
    lives in a store keyed by the engine's object id, and the session holds
    references into it.  Code that can raise (a property read on [undefined])
    runs in a state monad whose completion is normal or abrupt; an abrupt
    completion keeps every mutation made before it, as in JavaScript.
    Numbers are IEEE binary64 values, as in the language. *)

From Stdlib Require Import Floats ZArith NArith List String Bool Lia.
From stdpp Require Import base option list gmap strings.

Local Open Scope string_scope.
Local Set Warnings "-register-all,-inexact-float".

(** ** The engine's data (three.js), as far as the viewer reads or writes it *)

Module THREE.

Record Vector3 := Vector3_new { x : float; y : float; z : float }.

(** [v.set(x, y, z)] *)
Definition set (x y z : float) : Vector3 := Vector3_new x y z.

(** [target.subVectors(a, b)] *)
Definition subVectors (a b : Vector3) : Vector3 :=
  Vector3_new (x a - x b) (y a - y b) (z a - z b).

Definition multiplyScalar (v : Vector3) (s : float) : Vector3 :=
  Vector3_new (x v * s) (y v * s) (z v * s).

(** [v.normalize()] is [v.divideScalar(v.length() || 1)], and
    [divideScalar(s)] multiplies by [1 / s].  [l || 1] takes [1] when [l]
    is falsy: a zero or NaN. *)
Definition length (v : Vector3) : float :=
  PrimFloat.sqrt (x v * x v + y v * y v + z v * z v).

Definition normalize (v : Vector3) : Vector3 :=
  let l := length v in
  let l := if PrimFloat.is_zero l || PrimFloat.is_nan l then 1%float else l in
  multiplyScalar v (1 / l).

Record Box3 := Box3_new { min : Vector3; max : Vector3 }.

(** [box.isEmpty()]: the box of an object without geometry has [max] below
    [min] (it is made of [+Infinity] and [-Infinity]). *)
Definition isEmpty (b : Box3) : bool :=
  PrimFloat.ltb (x (max b)) (x (min b)) ||
  PrimFloat.ltb (y (max b)) (y (min b)) ||
  PrimFloat.ltb (z (max b)) (z (min b)).

(** [box.getSize(target)]: zero for an empty box. *)
Definition getSize (b : Box3) : Vector3 :=
  if isEmpty b then Vector3_new 0 0 0 else subVectors (max b) (min b).

Inductive Material :=
| MeshPhongMaterial (color : Z)
| ParsedMaterial (name : string).

(** A node of a scene graph.  [isMesh] is the flag three.js sets on every
    [Mesh] instance (what [instanceof THREE.Mesh] observes); [type] is the
    string tag.  [worldBox] is the axis-aligned box the engine's
    [Box3.setFromObject] finds for the node as the loader delivered it. *)
Inductive Object3D := Object3D_new {
  type : string;
  isMesh : bool;
  position : Vector3;
  rotation_z : float;
  material : option Material;
  intensity : float;
  worldBox : Box3;
  children : list Object3D
}.

Definition setFromObject (o : Object3D) : Box3 := worldBox o.

Definition with_material (m : option Material) (o : Object3D) : Object3D :=
  Object3D_new (type o) (isMesh o) (position o) (rotation_z o) m
               (intensity o) (worldBox o) (children o).

Definition with_position (p : Vector3) (o : Object3D) : Object3D :=
  Object3D_new (type o) (isMesh o) p (rotation_z o) (material o)
               (intensity o) (worldBox o) (children o).

Definition with_rotation_z (r : float) (o : Object3D) : Object3D :=
  Object3D_new (type o) (isMesh o) (position o) r (material o)
               (intensity o) (worldBox o) (children o).

(** [o.traverse(callback)]: the callback on the node itself, then on every
    descendant, depth first.  The callbacks of the viewer rewrite fields of
    the visited node and never its list of children. *)
Fixpoint traverse (callback : Object3D -> Object3D) (o : Object3D) : Object3D :=
  match o with
  | Object3D_new t m p r mat i b kids =>
      match callback (Object3D_new t m p r mat i b kids) with
      | Object3D_new t' m' p' r' mat' i' b' _ =>
          Object3D_new t' m' p' r' mat' i' b' (List.map (traverse callback) kids)
      end
  end.

(** The nodes of a graph in the order [traverse] visits them. *)
Fixpoint nodes (o : Object3D) : list Object3D :=
  match o with
  | Object3D_new _ _ _ _ _ _ _ kids => o :: List.concat (List.map nodes kids)
  end.

Record PerspectiveCamera := PerspectiveCamera_new {
  fov : float;
  aspect : float;
  near : float;
  far : float;
  camera_position : Vector3
}.

Definition zero : Vector3 := Vector3_new 0 0 0.

Definition light (type : string) (intensity : float) (p : Vector3) : Object3D :=
  Object3D_new type false p 0 None intensity (Box3_new zero zero) [].

End THREE.

(** ** The host: DOM element, progress events, what a listener can observe *)

Record Element := {
  element_id : nat;
  offsetWidth : float;
  offsetHeight : float
}.

(** The [ProgressEvent] of the transport: byte counts. *)
Record ProgressEvent := { loaded : N; total : N }.

(** The [detail] of a [CustomEvent]. *)
Inductive Detail :=
| DetailLoading (loaded total : N)
| DetailLoaded (obj : nat)
| DetailError (err : string).

(** What the caller's callback receives. *)
Inductive CallbackArg :=
| ArgObject (obj : nat)
| ArgError (err : string).

(** A truthy value passed as [callback], known by its identity and by how the
    call [callback(arg)] ends: it returns, or it completes abruptly (the
    function throws, or the value is no function). *)
Record Callback := {
  callback_id : nat;
  callback_throws : CallbackArg -> bool
}.

(** A callback whose every call returns. *)
Definition returning (id : nat) : Callback :=
  {| callback_id := id; callback_throws := fun _ => false |}.

(** A callback whose every call completes abruptly. *)
Definition throwing (id : nat) : Callback :=
  {| callback_id := id; callback_throws := fun _ => true |}.

(** What leaves the module, in order: an event dispatched on an element, or
    the call [callback(arg)] the module makes (the callback is the caller's
    code: the call is recorded, and it ends as the callback says). *)
Inductive Observation :=
| Dispatched (target : nat) (eventName : string) (detail : Detail)
| Called (callback : Callback) (arg : CallbackArg).

(** ** The session *)

(** [scene.lights]: the members [fitCameraToObject] reads may be missing. *)
Record Lights := {
  keyLight : option nat;
  fillLight : option nat;
  backLight : option nat;
  ambient : option nat
}.

Record Scene := {
  children : list nat;
  camera : THREE.PerspectiveCamera;
  lights : Lights;
  locked : bool;
  element : Element
}.

(** The store of scene-graph objects, the session and the observations. *)
Record World := {
  objects : gmap nat THREE.Object3D;
  next_id : nat;
  scene : Scene;
  observed : list Observation
}.

Definition with_scene (s : Scene) (w : World) : World :=
  {| objects := objects w; next_id := next_id w; scene := s; observed := observed w |}.

Definition with_objects (o : gmap nat THREE.Object3D) (w : World) : World :=
  {| objects := o; next_id := next_id w; scene := scene w; observed := observed w |}.

Definition with_children (c : list nat) (s : Scene) : Scene :=
  {| children := c; camera := camera s; lights := lights s; locked := locked s;
     element := element s |}.

Definition with_camera (c : THREE.PerspectiveCamera) (s : Scene) : Scene :=
  {| children := children s; camera := c; lights := lights s; locked := locked s;
     element := element s |}.

Definition with_locked (b : bool) (s : Scene) : Scene :=
  {| children := children s; camera := camera s; lights := lights s; locked := b;
     element := element s |}.

(** ** Completions *)

Inductive Exception :=
| TypeError (message : string)
| Thrown (callback : nat).

Inductive Completion (A : Type) :=
| Normal (a : A)
| Throw (e : Exception).
Arguments Normal {A} a.
Arguments Throw {A} e.

Definition JS (A : Type) : Type := World -> Completion A * World.

#[export] Instance JS_ret : MRet JS := fun A a w => (Normal a, w).

#[export] Instance JS_bind : MBind JS := fun A B k m w =>
  match m w with
  | (Normal a, w') => k a w'
  | (Throw e, w') => (Throw e, w')
  end.

Definition throw {A} (e : Exception) : JS A := fun w => (Throw e, w).

Definition modify (f : World -> World) : JS unit := fun w => (Normal tt, f w).

Definition modify_scene (f : Scene -> Scene) : JS unit :=
  modify (fun w => with_scene (f (scene w)) w).

Definition modify_object (id : nat) (f : THREE.Object3D -> THREE.Object3D) : JS unit :=
  modify (fun w => with_objects (alter f id (objects w)) w).

Definition observe (o : Observation) : JS unit :=
  modify (fun w => {| objects := objects w; next_id := next_id w; scene := scene w;
                      observed := observed w ++ [o] |}).

(** The world a computation leaves, however it completes. *)
Definition exec {A} (m : JS A) (w : World) : World := snd (m w).

(** ** Scene children: [add], [remove], [forEach] *)

(** [scene.add(obj)] *)
Definition Scene_add (obj : nat) : JS unit :=
  modify_scene (fun s => with_children (children s ++ [obj]) s).

(** [children.indexOf(obj)]: the first position holding that very object. *)
Fixpoint indexOf (obj : nat) (l : list nat) : option nat :=
  match l with
  | [] => None
  | o :: l' => if Nat.eqb o obj then Some 0 else S <$> indexOf obj l'
  end.

(** [children.splice(index, 1)] *)
Definition splice1 (index : nat) (l : list nat) : list nat :=
  take index l ++ drop (S index) l.

(** [scene.remove(obj)] *)
Definition Scene_remove (obj : nat) : JS unit :=
  modify_scene (fun s =>
    match indexOf obj (children s) with
    | Some index => with_children (splice1 index (children s)) s
    | None => s
    end).

(** [scene.children.forEach(callbackfn)]: the length is read once, before the
    first call; index [k] is visited only if the array still has it. *)
Fixpoint forEach_from (n k : nat) (callbackfn : nat -> JS unit) : JS unit :=
  match n with
  | 0 => mret tt
  | S n' => fun w =>
      match children (scene w) !! k with
      | Some obj => (callbackfn obj ≫= fun _ => forEach_from n' (S k) callbackfn) w
      | None => forEach_from n' (S k) callbackfn w
      end
  end.

Definition children_forEach (callbackfn : nat -> JS unit) : JS unit :=
  fun w => forEach_from (List.length (children (scene w))) 0 callbackfn w.

(** [obj.type] of a referenced object. *)
Definition type_of (w : World) (obj : nat) : string :=
  match objects w !! obj with
  | Some o => THREE.type o
  | None => EmptyString
  end.

Definition is_group (w : World) (obj : nat) : bool :=
  String.eqb (type_of w obj) "Group".

(** [clearScene(scene)] *)
Definition clearScene : JS unit :=
  children_forEach (fun obj w =>
    if is_group w obj then Scene_remove obj w else (Normal tt, w)).

(** ** [Math] *)

(** [Math.max(a, b)]: NaN if either is NaN; [+0] counts as larger than [-0]. *)
Definition Math_max (a b : float) : float :=
  if PrimFloat.is_nan a || PrimFloat.is_nan b then PrimFloat.nan
  else if PrimFloat.ltb a b then b
  else if PrimFloat.ltb b a then a
  else if PrimFloat.get_sign a then b else a.

Definition Math_abs (a : float) : float := PrimFloat.abs a.

(** ** Scene preparation *)

Definition alloc (o : THREE.Object3D) : JS nat := fun w =>
  (Normal (next_id w),
   {| objects := <[next_id w := o]> (objects w); next_id := S (next_id w);
      scene := scene w; observed := observed w |}).

(** [setCamera(aspect)] *)
Definition setCamera (aspect : float) : THREE.PerspectiveCamera :=
  {| THREE.fov := 45; THREE.aspect := aspect; THREE.near := 0.01; THREE.far := 1000;
     THREE.camera_position := THREE.Vector3_new 0 0 5 |}.

(** [setLights(scene)]: two directional lights and the ambient light join the
    scene; [scene.lights] records the ambient light alone. *)
Definition setLights : JS unit :=
  ambient ← alloc (THREE.light "AmbientLight" 1 THREE.zero);
  backLight ← alloc (THREE.light "DirectionalLight" 0.05
                       (THREE.normalize (THREE.set 100 0 (-100))));
  fillLight ← alloc (THREE.light "DirectionalLight" 0.05 (THREE.set 100 0 100));
  Scene_add backLight;;
  Scene_add fillLight;;
  Scene_add ambient;;
  modify_scene (fun s =>
    {| children := children s; camera := camera s;
       lights := {| keyLight := None; fillLight := None; backLight := None;
                    ambient := Some ambient |};
       locked := locked s; element := element s |}).

(** [prepareScene(domElement)]: the session as it stands when [render]
    hands it to the render loop.  The renderer, the orbit controls and the
    resize listener are created here too.  The frames of the loop, the
    first of which [render] runs before [prepareScene] returns, let the
    orbit controller move the camera away from where [setCamera] put it;
    a frame is [animate] below, and nothing stated of a prepared session
    relies on where its camera stands.  A fresh scene has no [locked]
    property, which reads as false. *)
Definition prepareScene (domElement : Element) : World :=
  let width := offsetWidth domElement in
  let height := offsetHeight domElement in
  let camera := setCamera (width / height) in
  exec setLights
    {| objects := ∅; next_id := 0;
       scene := {| children := []; camera := camera;
                   lights := {| keyLight := None; fillLight := None;
                                backLight := None; ambient := None |};
                   locked := false; element := domElement |};
       observed := [] |}.

(** ** Loaders and what they are handed *)

(** The parsed material description ([MTLLoader.MaterialCreator]). *)
Record MaterialCreator := { source : string; preloaded : bool }.

Definition preload (m : MaterialCreator) : MaterialCreator :=
  {| source := source m; preloaded := true |}.

(** [new OBJLoader()] has [materials = null]. *)
Record OBJLoader := { materials : option MaterialCreator }.

Definition OBJLoader_new : OBJLoader := {| materials := None |}.

Definition setMaterials (m : MaterialCreator) (l : OBJLoader) : OBJLoader :=
  {| materials := Some m |}.

(** A call [objLoader.load(url, onLoad, onProgress, onError)]: the closures
    the loader keeps until the transport reports. *)
Record ObjRequest := {
  obj_url : string;
  obj_onLoad : nat -> JS unit;
  obj_onProgress : option (ProgressEvent -> JS unit);
  obj_onError : option (string -> JS unit)
}.

(** A call [mtlLoader.load(url, onLoad, onProgress, onError)].  The completion
    closure of the viewer ends in a call of [objLoader.load]; that call is
    what it yields here. *)
Record MtlRequest := {
  mtl_url : string;
  mtl_onLoad : MaterialCreator -> JS ObjRequest;
  mtl_onProgress : option (ProgressEvent -> JS unit);
  mtl_onError : option (string -> JS unit)
}.

Inductive Started :=
| StartedNothing
| StartedMtl (r : MtlRequest)
| StartedObj (r : ObjRequest).

(** [loadObject] returns the loader, or [false]. *)
Inductive LoadReturn :=
| ReturnFalse
| ReturnLoader (objLoader : OBJLoader).

(** [if (materialUrl)]: a missing argument and the empty string are falsy. *)
Definition truthy (materialUrl : option string) : bool :=
  match materialUrl with
  | Some u => negb (String.eqb u EmptyString)
  | None => false
  end.

Definition deref (obj : nat) : JS THREE.Object3D := fun w =>
  match objects w !! obj with
  | Some o => (Normal o, w)
  | None => (Throw (TypeError "Cannot read properties of undefined"), w)
  end.

Definition get_scene : JS Scene := fun w => (Normal (scene w), w).

(** [emitEvent(element, eventName, data)] *)
Definition emitEvent (element : Element) (eventName : string) (data : Detail) : JS unit :=
  observe (Dispatched (element_id element) eventName data).

(** [if (callback) callback(arg)]: the call, which may throw. *)
Definition call_if_given (callback : option Callback) (arg : CallbackArg) : JS unit :=
  match callback with
  | Some cb =>
      observe (Called cb arg);;
      if callback_throws cb arg then throw (Thrown (callback_id cb)) else mret tt
  | None => mret tt
  end.

(** [lights.keyLight.position.set(...)] on a member that may be missing. *)
Definition light_position_set (member : option nat) (p : THREE.Vector3) : JS unit :=
  match member with
  | Some l => modify_object l (THREE.with_position p)
  | None => throw (TypeError "Cannot read properties of undefined (reading 'position')")
  end.

(** The assignments of [resetObjectPosition] to [object.position] and
    [object.rotation.z], for a bounding box. *)
Definition centred (boundingBox : THREE.Box3) (o : THREE.Object3D) : THREE.Object3D :=
  let size := THREE.getSize boundingBox in
  THREE.with_rotation_z 0
    (THREE.with_position
       (THREE.Vector3_new
          (- THREE.x (THREE.min boundingBox) - THREE.x size / 2)
          (- THREE.y (THREE.min boundingBox) - THREE.y size / 2)
          (- THREE.z (THREE.min boundingBox) - THREE.z size / 2)) o).

(** [camera.position.z = z] *)
Definition camera_at_z (z : float) (c : THREE.PerspectiveCamera) : THREE.PerspectiveCamera :=
  THREE.PerspectiveCamera_new (THREE.fov c) (THREE.aspect c) (THREE.near c) (THREE.far c)
    (THREE.Vector3_new (THREE.x (THREE.camera_position c))
                       (THREE.y (THREE.camera_position c)) z).

(** [camera.position] as the orbit controller sets it. *)
Definition camera_at (position : THREE.Vector3) (c : THREE.PerspectiveCamera)
    : THREE.PerspectiveCamera :=
  THREE.PerspectiveCamera_new (THREE.fov c) (THREE.aspect c) (THREE.near c) (THREE.far c)
    position.

(** One frame of the render loop, [animate] in [render]:
    [camera.controls.update()] lets the orbit controller move the camera
    (auto-rotation, or the user's drag); where to is the controller's
    business and is given here.  [renderer.render(scene, camera)] writes
    nothing of the session. *)
Definition animate (position : THREE.Vector3) : JS unit :=
  modify_scene (fun s => with_camera (camera_at position (camera s)) s).

(** ** The transport *)

(** What a loader's transport reports: progress, the parsed result, or an
    error.  Each report runs one closure of the request, as a task of its
    own: an exception ends that task and nothing else. *)
Inductive Transport (T : Type) :=
| Progress (xhr : ProgressEvent)
| Load (result : T)
| Error (err : string).
Arguments Progress {T} xhr.
Arguments Load {T} result.
Arguments Error {T} err.

Definition if_registered {A} (h : option (A -> JS unit)) (a : A) : JS unit :=
  match h with
  | Some f => f a
  | None => mret tt
  end.

Definition ObjRequest_deliver (r : ObjRequest) (ev : Transport THREE.Object3D)
    : JS unit :=
  match ev with
  | Progress xhr => if_registered (obj_onProgress r) xhr
  | Load parsed => obj ← alloc parsed; obj_onLoad r obj
  | Error err => if_registered (obj_onError r) err
  end.

Definition ObjRequest_run (r : ObjRequest) (evs : list (Transport THREE.Object3D))
    (w : World) : World :=
  foldl (fun w ev => exec (ObjRequest_deliver r ev) w) w evs.

Fixpoint MtlRequest_run (r : MtlRequest) (evs : list (Transport MaterialCreator))
    (obj_evs : list (Transport THREE.Object3D)) (w : World) : World :=
  match evs with
  | [] => w
  | Progress xhr :: evs' =>
      MtlRequest_run r evs' obj_evs (exec (if_registered (mtl_onProgress r) xhr) w)
  | Error err :: evs' =>
      MtlRequest_run r evs' obj_evs (exec (if_registered (mtl_onError r) err) w)
  | Load m :: _ =>
      match mtl_onLoad r m w with
      | (Normal r', w') => ObjRequest_run r' obj_evs w'
      | (Throw _, w') => w'
      end
  end.

Definition drive (started : Started) (mtl_evs : list (Transport MaterialCreator))
    (obj_evs : list (Transport THREE.Object3D)) (w : World) : World :=
  match started with
  | StartedNothing => w
  | StartedObj r => ObjRequest_run r obj_evs w
  | StartedMtl r => MtlRequest_run r mtl_evs obj_evs w
  end.

(** ** Camera fit and asset loading *)

Section Host.

(** [Math.tan] of the host, an implementation-approximated function. *)
Variable Math_tan : float -> float.

(** [resetObjectPosition(boundingBox, object)]; yields the box it leaves
    in [boundingBox]. *)
Definition resetObjectPosition (object : nat) : JS THREE.Box3 :=
  o ← deref object;
  let boundingBox := THREE.setFromObject o in
  modify_object object (centred boundingBox);;
  mret boundingBox.

(** The distance [fitCameraToObject] computes from the camera's field of
    view and a box size. *)
Definition fit_distance (fov : float) (size : THREE.Vector3) : float :=
  let cameraZ := Math_abs (THREE.y size / 2 * Math_tan (fov * 2)) in
  Math_max cameraZ (THREE.z size) * 1.5.

(** [fitCameraToObject(camera, object, lights)], called with the session's
    camera.  In order: [fov] is read; [boundingBox.setFromObject(object)];
    [resetObjectPosition]; [boundingBox.getSize(size)]; [cameraZ] and [z];
    [camera.position.z = z]; then the three assignments to the lights, each
    of which reads a member of [lights] first. *)
Definition fitCameraToObject (object : nat) (lights : Lights) : JS unit :=
  s ← get_scene;
  let fov := THREE.fov (camera s) in
  _ ← deref object;
  boundingBox ← resetObjectPosition object;
  let size := THREE.getSize boundingBox in
  let z := fit_distance fov size in
  modify_scene (fun s => with_camera (camera_at_z z (camera s)) s);;
  light_position_set (keyLight lights) (THREE.set (- z) 0 z);;
  light_position_set (fillLight lights) (THREE.set z 0 z);;
  light_position_set (backLight lights) (THREE.set z 0 (- z)).

(** The traversal callback of [loadObj]. *)
Definition set_default_material (material : THREE.Material)
    (child : THREE.Object3D) : THREE.Object3D :=
  if THREE.isMesh child then THREE.with_material (Some material) child else child.

(** [loadObj(objLoader, scene, url, callback)]: the call of
    [objLoader.load] it makes, with the completion, progress and error
    closures in the order of the source. *)
Definition loadObj (objLoader : OBJLoader) (url : string) (callback : option Callback)
    : ObjRequest :=
  let material := THREE.MeshPhongMaterial 0xbbbbcc in
  {| obj_url := url;
     obj_onLoad := fun obj =>
       match materials objLoader with
       | None => modify_object obj (THREE.traverse (set_default_material material))
       | Some _ => mret tt
       end;;
       Scene_add obj;;
       s ← get_scene;
       fitCameraToObject obj (lights s);;
       modify_scene (with_locked false);;
       call_if_given callback (ArgObject obj);;
       s ← get_scene;
       emitEvent (element s) "loaded" (DetailLoaded obj);
     obj_onProgress := Some (fun xhr =>
       s ← get_scene;
       if N.eqb (total xhr) 0
       then emitEvent (element s) "loading" (DetailLoading 0 100)
       else emitEvent (element s) "loading" (DetailLoading (loaded xhr) (total xhr)));
     obj_onError := Some (fun err =>
       s ← get_scene;
       emitEvent (element s) "error" (DetailError err);;
       call_if_given callback (ArgError err)) |}.

(** [loadObject(scene, url, materialUrl, callback)]: what it returns and
    which loader it starts.  The material loader is handed a completion
    closure and no other. *)
Definition loadObject (url : string) (materialUrl : option string)
    (callback : option Callback) : JS (LoadReturn * Started) :=
  let objLoader := OBJLoader_new in
  s ← get_scene;
  if locked s then mret (ReturnFalse, StartedNothing)
  else
    modify_scene (with_locked true);;
    if truthy materialUrl then
      mret (ReturnLoader objLoader,
            StartedMtl
              {| mtl_url := default EmptyString materialUrl;
                 mtl_onLoad := fun materials =>
                   let materials := preload materials in
                   let objLoader := setMaterials materials objLoader in
                   mret (loadObj objLoader url callback);
                 mtl_onProgress := None;
                 mtl_onError := None |})
    else
      mret (ReturnLoader objLoader, StartedObj (loadObj objLoader url callback)).

(** One load from call to quiescence: the call, then the reports of the
    material transport (if one was started) and of the mesh transport. *)
Definition load (url : string) (materialUrl : option string)
    (callback : option Callback)
    (mtl_evs : list (Transport MaterialCreator))
    (obj_evs : list (Transport THREE.Object3D)) (w : World)
    : Completion LoadReturn * World :=
  match loadObject url materialUrl callback w with
  | (Normal (ret, started), w') => (Normal ret, drive started mtl_evs obj_evs w')
  | (Throw e, w') => (Throw e, w')
  end.

End Host.

(** ** Closed forms and fixtures *)

(** What [clearScene] leaves of a list of children: a removed child makes the
    array shift under the running index, so the child after it is never
    visited. *)
Fixpoint survivors (group : nat -> bool) (l : list nat) : list nat :=
  match l with
  | [] => []
  | a :: l' =>
      if group a then
        match l' with
        | [] => []
        | b :: l'' => b :: survivors group l''
        end
      else a :: survivors group l'
  end.

(** Whether a child appended to [l] would be stepped over. *)
Fixpoint skips (group : nat -> bool) (l : list nat) : bool :=
  match l with
  | [] => false
  | a :: l' =>
      if group a then
        match l' with
        | [] => true
        | _ :: l'' => skips group l''
        end
      else skips group l'
  end.

Definition clear_callback (obj : nat) : JS unit := fun w =>
  if is_group w obj then Scene_remove obj w else (Normal tt, w).

(** The world after more observations. *)
Definition observing (os : list Observation) (w : World) : World :=
  {| objects := objects w; next_id := next_id w; scene := scene w;
     observed := observed w ++ os |}.

(** The name of a notification; a call of the callback has none. *)
Definition eventName_of (o : Observation) : option string :=
  match o with
  | Dispatched _ name _ => Some name
  | Called _ _ => None
  end.

Definition notifications (w : World) : list string :=
  omap eventName_of (observed w).

(** Whether a report is the transport's successful completion. *)
Definition completes {T} (ev : Transport T) : bool :=
  match ev with
  | Load _ => true
  | _ => false
  end.

(** The notification the progress closure sends for a report, on the
    element of the session. *)
Definition loading_notification (w : World) (xhr : ProgressEvent) : Observation :=
  Dispatched (element_id (element (scene w))) "loading"
    (if N.eqb (total xhr) 0 then DetailLoading 0 100
     else DetailLoading (loaded xhr) (total xhr)).

(** The default material of [loadObj]. *)
Definition grey : THREE.Material := THREE.MeshPhongMaterial 0xbbbbcc.

(** What the traversal of [loadObj] decides about a graph: which nodes are
    meshes and which material each node carries, in visiting order. *)
Definition paint_of (o : THREE.Object3D) : list bool * list (option THREE.Material) :=
  (List.map THREE.isMesh (THREE.nodes o), List.map THREE.material (THREE.nodes o)).

(** A computation that leaves the paint of every stored graph as it was. *)
Definition keeps_paint {A} (m : JS A) : Prop :=
  forall w id, paint_of <$> (objects (snd (m w)) !! id) = paint_of <$> (objects w !! id).

(** Whether a call of the callback on an argument returns; no callback, no
    call. *)
Definition callback_returns (callback : option Callback) (arg : CallbackArg) : bool :=
  match callback with
  | Some cb => negb (callback_throws cb arg)
  | None => true
  end.

(** What the completion closure lets be observed after the camera fit: the
    call of the callback, if one was given, and then, unless that call
    threw, the "loaded" notification. *)
Definition completion_observations (callback : option Callback) (target obj : nat)
    : list Observation :=
  match callback with
  | Some cb => [Called cb (ArgObject obj)]
  | None => []
  end ++
  if callback_returns callback (ArgObject obj)
  then [Dispatched target "loaded" (DetailLoaded obj)]
  else [].

(** A container of 800 by 600 pixels. *)
Definition container : Element :=
  {| element_id := 7; offsetWidth := 800; offsetHeight := 600 |}.

Definition cube_box : THREE.Box3 :=
  THREE.Box3_new (THREE.Vector3_new (-1) (-1) (-1)) (THREE.Vector3_new 1 1 1).

(** A mesh node as [OBJLoader] builds it: it carries a material of its own. *)
Definition parsed_mesh : THREE.Object3D :=
  THREE.Object3D_new "Mesh" true THREE.zero 0 (Some (THREE.ParsedMaterial "default"))
                     0 cube_box [].

(** The parse result for a 2 x 2 x 2 cube centred at the origin: a group
    holding one mesh. *)
Definition parsed_cube : THREE.Object3D :=
  THREE.Object3D_new "Group" false THREE.zero 0 None 0 cube_box [parsed_mesh].

(** The caller puts a parsed graph into the scene. *)
Definition add_parsed (o : THREE.Object3D) : JS nat :=
  obj ← alloc o; Scene_add obj;; mret obj.

(** The parse result of a file without geometry: a group whose box is empty,
    as [Box3.makeEmpty] leaves it. *)
Definition empty_box : THREE.Box3 :=
  THREE.Box3_new
    (THREE.Vector3_new PrimFloat.infinity PrimFloat.infinity PrimFloat.infinity)
    (THREE.Vector3_new PrimFloat.neg_infinity PrimFloat.neg_infinity
                       PrimFloat.neg_infinity).

Definition parsed_empty : THREE.Object3D :=
  THREE.Object3D_new "Group" false THREE.zero 0 None 0 empty_box [].

(** A prepared scene holding two, and three, asset groups. *)
Definition two_groups : World :=
  exec (add_parsed parsed_cube;; add_parsed parsed_cube) (prepareScene container).

Definition three_groups : World :=
  exec (add_parsed parsed_cube) two_groups.

(** A tangent for the fixtures.  A prepared camera has [fov = 45], so the
    camera fit asks for the tangent of 90 radians and of nothing else; the
    table holds that one value. *)
Definition tan_table (a : float) : float :=
  if PrimFloat.eqb a 90 then (-1.995200412208242)%float else PrimFloat.nan.

(** The graph the completion closure works on: repainted when the loader has
    no materials. *)
Definition painted (objLoader : OBJLoader) (parsed : THREE.Object3D) : THREE.Object3D :=
  match materials objLoader with
  | None => THREE.traverse (set_default_material grey) parsed
  | Some _ => parsed
  end.

(** The world of the completion closure at the moment it reads
    [lights.keyLight]: the graph is stored, repainted and centred, it is a
    child of the scene, and the camera stands at the fitted distance. *)
Definition fitted (tan : float -> float) (objLoader : OBJLoader)
    (parsed : THREE.Object3D) (w : World) : World :=
  let z := fit_distance tan (THREE.fov (camera (scene w)))
             (THREE.getSize (THREE.worldBox parsed)) in
  {| objects := <[next_id w := centred (THREE.worldBox parsed) (painted objLoader parsed)]>
                  (objects w);
     next_id := S (next_id w);
     scene := with_camera (camera_at_z z (camera (scene w)))
                (with_children (children (scene w) ++ [next_id w]) (scene w));
     observed := observed w |}.

(** A prepared scene whose caller has completed [scene.lights]: a key light
    of their own (object 3), and the fill and back lights of the scene. *)
Definition lit_scene : World :=
  exec (key ← alloc (THREE.light "DirectionalLight" 0.5 (THREE.set (-100) 0 100));
        Scene_add key;;
        modify_scene (fun s =>
          {| children := children s; camera := camera s;
             lights := {| keyLight := Some key; fillLight := Some 2;
                          backLight := Some 1; ambient := Some 0 |};
             locked := locked s; element := element s |}))
       (prepareScene container).

(** A prepared scene with a load in flight. *)
Definition in_flight : World :=
  snd (load tan_table "model.obj" None None [] [] (prepareScene container)).

(** ** Resize and fullscreen *)

(** What the resize handler reads of [window]; [screenTop] and [screenY] may
    be missing on a host. *)
Record Window := {
  screenTop : option float;
  screenY : option float;
  innerWidth : float;
  innerHeight : float;
  devicePixelRatio : float
}.

Record WebGLRenderer := {
  renderer_width : float;
  renderer_height : float;
  pixelRatio : float
}.

(** [!x] for a number that may be undefined: true on undefined, zero, NaN. *)
Definition falsy (x : option float) : bool :=
  match x with
  | None => true
  | Some f => PrimFloat.is_zero f || PrimFloat.is_nan f
  end.

(** [setRenderer(width, height)] *)
Definition setRenderer (window : Window) (width height : float) : WebGLRenderer :=
  {| renderer_width := width; renderer_height := height;
     pixelRatio := devicePixelRatio window |}.

(** A session together with the renderer [prepareScene] builds for it. *)
Record Viewer := { world : World; renderer : WebGLRenderer }.

Definition prepareViewer (window : Window) (domElement : Element) : Viewer :=
  {| world := prepareScene domElement;
     renderer := setRenderer window (offsetWidth domElement) (offsetHeight domElement) |}.

(** [camera.aspect = aspect] *)
Definition camera_with_aspect (aspect : float) (c : THREE.PerspectiveCamera)
    : THREE.PerspectiveCamera :=
  THREE.PerspectiveCamera_new (THREE.fov c) aspect (THREE.near c) (THREE.far c)
    (THREE.camera_position c).

(** The [resize] closure of [onWindowResize(element, camera, renderer)], run
    with the window and the element as they are at that moment. *)
Definition resize (window : Window) (element : Element) (v : Viewer) : Viewer :=
  let isFullscreen := falsy (screenTop window) && falsy (screenY window) in
  let width := if isFullscreen then innerWidth window else offsetWidth element in
  let height := if isFullscreen then innerHeight window else offsetHeight element in
  let aspect := (width / height)%float in
  {| world := with_scene (with_camera (camera_with_aspect aspect (camera (scene (world v))))
                            (scene (world v))) (world v);
     renderer := {| renderer_width := width; renderer_height := height;
                    pixelRatio := pixelRatio (renderer v) |} |}.

(** The listener [onWindowResize(...)] returns: [resize()] at once, and
    [resize] again from the timer, 100 ms later, when the window and the
    element may have changed. *)
Definition onWindowResize (now later : Window * Element) (v : Viewer) : Viewer :=
  resize (fst later) (snd later) (resize (fst now) (snd now) v).

(** The viewer after a series of resize events. *)
Definition resized (events : list ((Window * Element) * (Window * Element)))
    (v : Viewer) : Viewer :=
  foldl (fun v e => onWindowResize (fst e) (snd e) v) v events.

(** ['webkitCancelFullScreen' in document], ['mozCancelFullScreen' in document] *)
Record Document := {
  webkitCancelFullScreen : bool;
  mozCancelFullScreen : bool
}.

(** What [goFullScreen] asks of the host. *)
Inductive HostCall :=
| WebkitRequestFullScreen (element : nat)
| MozRequestFullScreen (element : nat)
| WindowDispatchEvent (eventName : string).

(** What [goFullScreen] returns: [true], [false], or whatever the host's
    [mozRequestFullScreen] returned. *)
Inductive FullScreenReturn :=
| FullScreenTrue
| FullScreenFalse
| FullScreenOfHost.

(** [goFullScreen(element)] *)
Definition goFullScreen (document : Document) (element : Element)
    : FullScreenReturn * list HostCall :=
  let hasWebkitFullScreen := webkitCancelFullScreen document in
  let hasMozFullScreen := mozCancelFullScreen document in
  if hasWebkitFullScreen then
    (FullScreenTrue,
     [WebkitRequestFullScreen (element_id element); WindowDispatchEvent "resize"])
  else if hasMozFullScreen then
    (FullScreenOfHost, [MozRequestFullScreen (element_id element)])
  else (FullScreenFalse, []).

(** ** A page: the session and the requests its loaders hold *)

(** The request [loadObject] hands to the material loader. *)
Definition material_request (tan : float -> float) (url : string)
    (materialUrl : option string) (callback : option Callback) : MtlRequest :=
  {| mtl_url := default EmptyString materialUrl;
     mtl_onLoad := fun materials =>
       let materials := preload materials in
       let objLoader := setMaterials materials OBJLoader_new in
       mret (loadObj tan objLoader url callback);
     mtl_onProgress := None;
     mtl_onError := None |}.

Record Page := { session : World; started : list Started }.

(** What can happen to a page: a call of the module, a report of a
    transport to the [n]-th request started so far, or a frame of the render
    loop, in any order and any number of times. *)
Inductive Input :=
| InLoadObject (url : string) (materialUrl : option string)
               (callback : option Callback)
| InClearScene
| InMeshReport (n : nat) (ev : Transport THREE.Object3D)
| InMaterialReport (n : nat) (ev : Transport MaterialCreator)
| InFrame (position : THREE.Vector3).

Definition react (tan : float -> float) (i : Input) (p : Page) : Page :=
  match i with
  | InLoadObject url materialUrl callback =>
      match loadObject tan url materialUrl callback (session p) with
      | (Normal (_, StartedNothing), w') => {| session := w'; started := started p |}
      | (Normal (_, s), w') => {| session := w'; started := started p ++ [s] |}
      | (Throw _, w') => {| session := w'; started := started p |}
      end
  | InClearScene => {| session := exec clearScene (session p); started := started p |}
  | InMeshReport n ev =>
      match started p !! n with
      | Some (StartedObj r) =>
          {| session := exec (ObjRequest_deliver r ev) (session p); started := started p |}
      | _ => p
      end
  | InMaterialReport n ev =>
      match started p !! n with
      | Some (StartedMtl r) =>
          match ev with
          | Progress xhr =>
              {| session := exec (if_registered (mtl_onProgress r) xhr) (session p);
                 started := started p |}
          | Error err =>
              {| session := exec (if_registered (mtl_onError r) err) (session p);
                 started := started p |}
          | Load m =>
              match mtl_onLoad r m (session p) with
              | (Normal r', w') =>
                  {| session := w'; started := started p ++ [StartedObj r'] |}
              | (Throw _, w') => {| session := w'; started := started p |}
              end
          end
      | _ => p
      end
  | InFrame position =>
      {| session := exec (animate position) (session p); started := started p |}
  end.

(** The page a container's session has become after a series of inputs
    (the frame [prepareScene] itself runs being the first of them). *)
Definition page_after (tan : float -> float) (domElement : Element)
    (inputs : list Input) : Page :=
  foldl (fun p i => react tan i p) {| session := prepareScene domElement; started := [] |}
        inputs.

(** The store and the scene agree: the children are distinct objects, each
    child is stored, and every stored object was numbered before
    [next_id]. *)
Definition well_formed (w : World) : Prop :=
  NoDup (children (scene w)) /\
  (forall obj, obj ∈ children (scene w) -> is_Some (objects w !! obj)) /\
  (forall obj, is_Some (objects w !! obj) -> obj < next_id w).

(** An observation that does not report a completed load. *)
Definition reports_no_completion (o : Observation) : bool :=
  match o with
  | Dispatched _ name _ => negb (String.eqb name "loaded")
  | Called _ (ArgObject _) => false
  | Called _ (ArgError _) => true
  end.

(** Whether two neighbours in a list of children are both groups. *)
Fixpoint adjacent_groups (group : nat -> bool) (l : list nat) : bool :=
  match l with
  | [] => false
  | a :: l' =>
      match l' with
      | [] => false
      | b :: _ => (group a && group b) || adjacent_groups group l'
      end
  end.

Definition count_groups (group : nat -> bool) (l : list nat) : nat :=
  List.length (filter (fun o => group o = true) l).

(** A request as [loadObject] and its material closure make them. *)
Definition request_of_module (tan : float -> float) (s : Started) : Prop :=
  match s with
  | StartedNothing => True
  | StartedObj r => exists objLoader url callback, r = loadObj tan objLoader url callback
  | StartedMtl r =>
      exists url materialUrl callback, r = material_request tan url materialUrl callback
  end.

(** What holds of a session built by [prepareScene] however it is used. *)
Definition prepared (w : World) : Prop :=
  well_formed w /\
  keyLight (lights (scene w)) = None /\
  Forall (fun o => reports_no_completion o = true) (observed w).

Definition prepared_page (tan : float -> float) (p : Page) : Prop :=
  prepared (session p) /\ Forall (request_of_module tan) (started p).

(** A prepared scene holding one asset group. *)
Definition one_group : World :=
  exec (add_parsed parsed_cube) (prepareScene container).

(** A window that is not at the origin of the screen, and one that is. *)
Definition windowed : Window :=
  {| screenTop := Some 80%float; screenY := Some 80%float; innerWidth := 1280;
     innerHeight := 720; devicePixelRatio := 2 |}.

Definition fullscreen : Window :=
  {| screenTop := Some 0%float; screenY := Some 0%float; innerWidth := 1920;
     innerHeight := 1080; devicePixelRatio := 2 |}.

Definition is_fullscreen_request (c : HostCall) : bool :=
  match c with
  | WebkitRequestFullScreen _ | MozRequestFullScreen _ => true
  | WindowDispatchEvent _ => false
  end.

(** * Properties *)

Local Open Scope list_scope.

(** ** Scene clearing *)

Lemma with_children_same w c :
  children (scene w) = c -> with_scene (with_children c (scene w)) w = w.
Proof. destruct w as [o n [c' cam l lk el] obs]; simpl; intros ->; reflexivity. Qed.

Lemma indexOf_app_fresh a pre rest :
  a ∉ pre -> indexOf a (pre ++ a :: rest) = Some (List.length pre).
Proof.
  induction pre as [|p pre IH]; simpl; intros Hnot.
  - rewrite Nat.eqb_refl. reflexivity.
  - destruct (Nat.eqb_spec p a) as [->|Hne].
    + exfalso. apply Hnot. left.
    + rewrite IH; [reflexivity|]. intros Hin. apply Hnot. right. exact Hin.
Qed.

Lemma splice1_app pre a rest :
  splice1 (List.length pre) (pre ++ a :: rest) = pre ++ rest.
Proof.
  unfold splice1. rewrite take_app_length.
  replace (S (List.length pre)) with (List.length (pre ++ [a])).
  - rewrite (cons_middle a pre rest), app_assoc, drop_app_length. reflexivity.
  - rewrite length_app. simpl. lia.
Qed.

Lemma forEach_from_beyond callbackfn n k w :
  List.length (children (scene w)) <= k ->
  forEach_from n k callbackfn w = (Normal tt, w).
Proof.
  revert k. induction n as [|n IH]; intros k Hk; simpl; [reflexivity|].
  rewrite (lookup_ge_None_2 _ _ Hk). apply IH. lia.
Qed.

Lemma forEach_from_clear n : forall pre rest w,
  children (scene w) = pre ++ rest ->
  NoDup (pre ++ rest) ->
  List.length rest <= n ->
  forEach_from n (List.length pre) clear_callback w =
  (Normal tt,
   with_scene (with_children (pre ++ survivors (is_group w) rest) (scene w)) w).
Proof.
  induction n as [|n IH]; intros pre rest w Hc Hnd Hlen.
  - destruct rest; simpl in Hlen; [|lia]. simpl.
    rewrite with_children_same; [reflexivity|]. rewrite Hc. reflexivity.
  - destruct rest as [|a rest].
    + rewrite forEach_from_beyond.
      * simpl. rewrite with_children_same; [reflexivity|]. rewrite Hc. reflexivity.
      * rewrite Hc, length_app. simpl. lia.
    + simpl forEach_from.
      assert (Hlk : children (scene w) !! List.length pre = Some a).
      { rewrite Hc. apply list_lookup_middle. reflexivity. }
      rewrite Hlk. unfold mbind, JS_bind, clear_callback at 1. simpl survivors.
      destruct (is_group w a) eqn:Hg.
      * assert (Hfresh : a ∉ pre).
        { apply NoDup_app in Hnd as (_ & Hd & _). intros Hin.
          apply (Hd a Hin). left. }
        unfold Scene_remove, modify_scene, modify. simpl.
        rewrite Hc, indexOf_app_fresh, splice1_app by exact Hfresh.
        set (w1 := with_scene (with_children (pre ++ rest) (scene w)) w).
        assert (Hnd1 : NoDup (pre ++ rest)).
        { apply NoDup_app in Hnd as (Hp & Hd & Hr). apply NoDup_app.
          split; [exact Hp|]. split.
          - intros x Hx Hx'. apply (Hd x Hx). right. exact Hx'.
          - apply NoDup_cons in Hr as [_ Hr]. exact Hr. }
        destruct rest as [|b rest].
        -- rewrite forEach_from_beyond.
           ++ reflexivity.
           ++ subst w1. simpl. rewrite length_app. simpl. lia.
        -- replace (S (List.length pre)) with (List.length (pre ++ [b]))
             by (rewrite length_app; simpl; lia).
           rewrite (IH (pre ++ [b]) rest w1).
           ++ subst w1. simpl. rewrite <- app_assoc. reflexivity.
           ++ subst w1. simpl. rewrite <- app_assoc. reflexivity.
           ++ rewrite <- app_assoc. exact Hnd1.
           ++ simpl in Hlen. lia.
      * replace (S (List.length pre)) with (List.length (pre ++ [a]))
          by (rewrite length_app; simpl; lia).
        rewrite (IH (pre ++ [a]) rest w).
        -- rewrite <- app_assoc. reflexivity.
        -- rewrite <- app_assoc. exact Hc.
        -- rewrite <- app_assoc. exact Hnd.
        -- simpl in Hlen. lia.
Qed.

(** With children that are distinct objects, [clearScene] completes normally
    and leaves exactly the [survivors]; nothing else in the world changes. *)
Lemma clearScene_survivors w :
  NoDup (children (scene w)) ->
  clearScene w =
  (Normal tt,
   with_scene (with_children (survivors (is_group w) (children (scene w))) (scene w)) w).
Proof.
  intros Hnd. unfold clearScene, children_forEach.
  apply (forEach_from_clear _ [] (children (scene w)) w); [reflexivity|exact Hnd|lia].
Qed.

Lemma survivors_elem group l x : x ∈ survivors group l -> x ∈ l.
Proof.
  remember (List.length l) as n eqn:Hn.
  assert (Hle : List.length l <= n) by lia. clear Hn.
  revert l Hle. induction n as [|n IH]; intros l Hle Hin.
  - destruct l; [exact Hin|simpl in Hle; lia].
  - destruct l as [|a l]; [exact Hin|]. simpl in Hin, Hle.
    destruct (group a).
    + destruct l as [|b l]; [inversion Hin|]. simpl in Hle.
      apply elem_of_cons in Hin as [->|Hin].
      * right. left.
      * right. right. apply IH; [lia|exact Hin].
    + apply elem_of_cons in Hin as [->|Hin]; [left|].
      right. apply IH; [lia|exact Hin].
Qed.

Lemma survivors_app group pre l :
  skips group pre = false ->
  survivors group (pre ++ l) = survivors group pre ++ survivors group l.
Proof.
  remember (List.length pre) as n eqn:Hn.
  assert (Hle : List.length pre <= n) by lia. clear Hn.
  revert pre Hle. induction n as [|n IH]; intros pre Hle Hs.
  - destruct pre; [reflexivity|simpl in Hle; lia].
  - destruct pre as [|a pre]; [reflexivity|]. simpl in Hs, Hle |- *.
    destruct (group a).
    + destruct pre as [|b pre]; [discriminate|]. simpl in Hle |- *.
      rewrite IH; [reflexivity|lia|exact Hs].
    + rewrite IH; [reflexivity|lia|exact Hs].
Qed.

Lemma skips_app group pre l :
  skips group pre = false -> skips group (pre ++ l) = skips group l.
Proof.
  remember (List.length pre) as n eqn:Hn.
  assert (Hle : List.length pre <= n) by lia. clear Hn.
  revert pre Hle. induction n as [|n IH]; intros pre Hle Hs.
  - destruct pre; [reflexivity|simpl in Hle; lia].
  - destruct pre as [|a pre]; [reflexivity|]. simpl in Hs, Hle |- *.
    destruct (group a).
    + destruct pre as [|b pre]; [discriminate|]. simpl in Hle |- *.
      apply IH; [lia|exact Hs].
    + apply IH; [lia|exact Hs].
Qed.

(** After a child that is no group the iteration is in step again. *)
Lemma skips_snoc_non_group group l x :
  group x = false -> skips group (l ++ [x]) = false.
Proof.
  intros Hx. remember (List.length l) as n eqn:Hn.
  assert (Hle : List.length l <= n) by lia. clear Hn.
  revert l Hle. induction n as [|n IH]; intros l Hle.
  - destruct l; [simpl; rewrite Hx; reflexivity|simpl in Hle; lia].
  - destruct l as [|a l]; [simpl; rewrite Hx; reflexivity|]. simpl in Hle |- *.
    destruct (group a).
    + destruct l as [|b l]; [reflexivity|]. simpl in Hle |- *. apply IH. lia.
    + apply IH. lia.
Qed.

(** So it is after an even number of groups in a row. *)
Lemma skips_even_run group run :
  Forall (fun o => group o = true) run -> Nat.Even (List.length run) ->
  skips group run = false.
Proof.
  intros Hall [k Hk]. revert run Hall Hk.
  induction k as [|k IH]; intros run Hall Hk.
  - destruct run; [reflexivity|simpl in Hk; lia].
  - destruct run as [|a [|b run]]; simpl in Hk; try lia.
    inversion Hall as [|? ? Ha Hall']; subst. simpl. rewrite Ha.
    inversion Hall' as [|? ? _ Hall'']; subst.
    apply IH; [exact Hall''|lia].
Qed.

(** The part of "removes the groups, leaves the rest" that holds on every
    list: no child that is not a group is lost, and their order stays. *)
Lemma survivors_keep_non_groups group l :
  filter (fun o => group o = false) (survivors group l) =
  filter (fun o => group o = false) l.
Proof.
  remember (List.length l) as n eqn:Hn.
  assert (Hle : List.length l <= n) by lia. clear Hn.
  revert l Hle. induction n as [|n IH]; intros l Hle.
  - destruct l; [reflexivity|simpl in Hle; lia].
  - destruct l as [|a l]; [reflexivity|]. simpl in Hle. simpl survivors.
    destruct (group a) eqn:Ha.
    + rewrite (filter_cons_False _ a) by (rewrite Ha; discriminate).
      destruct l as [|b l]; [reflexivity|]. simpl in Hle.
      rewrite !(filter_cons _ b), IH by lia. reflexivity.
    + rewrite !(filter_cons _ a), IH by lia. reflexivity.
Qed.

(** Apart from the list of children, [clearScene] changes nothing, and of the
    children it loses no one that is not a group. *)
Lemma clearScene_frame w :
  NoDup (children (scene w)) ->
  let w' := exec clearScene w in
  objects w' = objects w /\ observed w' = observed w /\
  camera (scene w') = camera (scene w) /\ lights (scene w') = lights (scene w) /\
  locked (scene w') = locked (scene w) /\
  filter (fun o => is_group w o = false) (children (scene w')) =
  filter (fun o => is_group w o = false) (children (scene w)).
Proof.
  intros Hnd. unfold exec. rewrite (clearScene_survivors w Hnd). simpl.
  repeat split; try reflexivity. apply survivors_keep_non_groups.
Qed.

(** C5: one call of [clearScene] on a prepared scene that holds two asset
    groups (children: back light, fill light, ambient light, group 3,
    group 4) removes group 3 only; group 4, a direct child whose type is
    'Group', is still a child afterwards. *)
Theorem clearScene_two_groups_leaves_one :
  children (scene two_groups) = [1; 2; 0; 3; 4] /\
  is_group two_groups 3 = true /\
  is_group two_groups 4 = true /\
  fst (clearScene two_groups) = Normal tt /\
  children (scene (exec clearScene two_groups)) = [1; 2; 0; 4].
Proof. vm_compute. repeat split; reflexivity. Qed.

(** C6, as stated, fails: with three groups in a row (3, 4, 5) the adjacent
    pair 4, 5 is treated the other way round: 4 stays and 5 is removed. *)
Lemma clearScene_three_groups_counterexample :
  children (scene three_groups) = [1; 2; 0; 3; 4; 5] /\
  is_group three_groups 4 = true /\
  is_group three_groups 5 = true /\
  children (scene (exec clearScene three_groups)) = [1; 2; 0; 4].
Proof. vm_compute. repeat split; reflexivity. Qed.

(** C6, amended: in a scene whose children are distinct objects, take two
    adjacent children [a], [b] of type 'Group' such that [a] is preceded,
    within its run of consecutive groups, by an even number of groups (the
    run starts the list or follows a child that is no group).  One call of
    [clearScene] removes [a] and leaves [b] in the scene. *)
Theorem clearScene_adjacent_groups w pre run a b post :
  children (scene w) = pre ++ run ++ a :: b :: post ->
  NoDup (children (scene w)) ->
  (pre = [] \/ exists pre' x, pre = pre' ++ [x] /\ is_group w x = false) ->
  Forall (fun o => is_group w o = true) run ->
  Nat.Even (List.length run) ->
  is_group w a = true ->
  is_group w b = true ->
  (a ∉ children (scene (exec clearScene w))) /\
  (b ∈ children (scene (exec clearScene w))).
Proof.
  intros Hc Hnd Hpre Hrun Heven Ha Hb.
  unfold exec. rewrite (clearScene_survivors w Hnd). simpl.
  assert (Hs : skips (is_group w) (pre ++ run) = false).
  { assert (Hp : skips (is_group w) pre = false).
    { destruct Hpre as [->|(pre' & x & -> & Hx)]; [reflexivity|].
      apply skips_snoc_non_group. exact Hx. }
    rewrite skips_app by exact Hp. apply skips_even_run; assumption. }
  rewrite Hc, app_assoc, survivors_app by exact Hs.
  simpl survivors. rewrite Ha.
  rewrite Hc, app_assoc in Hnd.
  apply NoDup_app in Hnd as (_ & Hdis & Hab).
  apply NoDup_cons in Hab as [Hab _].
  split.
  - intros Hin. apply elem_of_app in Hin as [Hin|Hin].
    + apply survivors_elem in Hin. apply (Hdis a Hin). left.
    + apply elem_of_cons in Hin as [->|Hin].
      * apply Hab. left.
      * apply survivors_elem in Hin. apply Hab. right. exact Hin.
  - apply elem_of_app. right. left.
Qed.

Lemma clearScene_adjacent_groups_witness :
  (3 ∉ children (scene (exec clearScene three_groups))) /\
  (4 ∈ children (scene (exec clearScene three_groups))).
Proof.
  apply (clearScene_adjacent_groups three_groups [1; 2; 0] [] 3 4 [5]).
  - vm_compute. reflexivity.
  - apply (bool_decide_unpack (NoDup _)). vm_compute. exact I.
  - right. exists [1; 2], 0. split; vm_compute; reflexivity.
  - apply Forall_nil_2.
  - exists 0. reflexivity.
  - vm_compute. reflexivity.
  - vm_compute. reflexivity.
Defined.

(** ** Asset loading *)

(** C2: on a session whose [locked] flag is true, [loadObject] returns
    [false] and hands nothing to any loader; whatever the transports would
    report, the world (scene children, camera, lights, [locked], and the
    notifications and callback calls observed so far) is what it was. *)
Theorem loadObject_locked tan url materialUrl callback mtl_evs obj_evs w :
  locked (scene w) = true ->
  loadObject tan url materialUrl callback w = (Normal (ReturnFalse, StartedNothing), w) /\
  load tan url materialUrl callback mtl_evs obj_evs w = (Normal ReturnFalse, w).
Proof.
  intros Hl. unfold load, loadObject, mbind, JS_bind, get_scene.
  rewrite Hl. split; reflexivity.
Qed.

Lemma loadObject_locked_witness :
  loadObject tan_table "other.obj" (Some "other.mtl") (Some (returning 1)) in_flight =
    (Normal (ReturnFalse, StartedNothing), in_flight) /\
  load tan_table "other.obj" (Some "other.mtl") (Some (returning 1))
       [Load {| source := "other.mtl"; preloaded := false |}] [Load parsed_cube]
       in_flight = (Normal ReturnFalse, in_flight).
Proof. apply loadObject_locked. vm_compute. reflexivity. Defined.

(** The progress closure: one "loading" notification, and nothing else. *)
Lemma onProgress_run tan objLoader url callback xhr w :
  ObjRequest_deliver (loadObj tan objLoader url callback) (Progress xhr) w =
  (Normal tt, observing [loading_notification w xhr] w).
Proof.
  unfold ObjRequest_deliver, loadObj, if_registered, mbind, JS_bind, get_scene,
    loading_notification. simpl.
  destruct (N.eqb (total xhr) 0); reflexivity.
Qed.

(** C9: for every progress report during a load, the progress closure
    completes normally and sends exactly one notification, named "loading",
    on the session's element; it carries loaded 0 of total 100 when the
    report's total is 0, and the report's own loaded and total counts
    otherwise.  The scene and the stored objects are not written. *)
Theorem onProgress_notification tan objLoader url callback xhr w :
  let r := ObjRequest_deliver (loadObj tan objLoader url callback) (Progress xhr) w in
  fst r = Normal tt /\
  scene (snd r) = scene w /\
  objects (snd r) = objects w /\
  observed (snd r) =
    observed w ++
    [Dispatched (element_id (element (scene w))) "loading"
       (if N.eqb (total xhr) 0 then DetailLoading 0 100
        else DetailLoading (loaded xhr) (total xhr))].
Proof. intros r. subst r. rewrite onProgress_run. repeat split; reflexivity. Qed.

Lemma MtlRequest_run_no_handlers r mtl_evs obj_evs w :
  mtl_onProgress r = None -> mtl_onError r = None ->
  Forall (fun ev => completes ev = false) mtl_evs ->
  MtlRequest_run r mtl_evs obj_evs w = w.
Proof.
  intros Hp He Hall. induction Hall as [|ev evs Hev _ IH]; [reflexivity|].
  destruct ev as [xhr|m|err]; simpl in *; [|discriminate|].
  - rewrite Hp. exact IH.
  - rewrite He. exact IH.
Qed.

(** C10: a load with a material URL on an unlocked session, whose material
    transport never reports completion (it may report progress and errors):
    the call returns the loader and sets [locked]; afterwards nothing more
    happens, so no notification is sent, the callback is not called, and
    [locked] stays true. *)
Theorem loadObject_material_fetch_fails tan url m callback mtl_evs obj_evs w :
  locked (scene w) = false ->
  truthy (Some m) = true ->
  Forall (fun ev => completes ev = false) mtl_evs ->
  load tan url (Some m) callback mtl_evs obj_evs w =
  (Normal (ReturnLoader OBJLoader_new), with_scene (with_locked true (scene w)) w).
Proof.
  intros Hl Hm Hall. unfold load, loadObject, mbind, JS_bind, get_scene.
  rewrite Hl. simpl in Hm |- *. rewrite Hm. simpl.
  rewrite MtlRequest_run_no_handlers by (reflexivity || exact Hall). reflexivity.
Qed.

Lemma loadObject_material_fetch_fails_witness :
  load tan_table "model.obj" (Some "model.mtl") (Some (returning 1))
       [Progress {| loaded := 10; total := 40 |}; Error "404"] [Load parsed_cube]
       (prepareScene container) =
  (Normal (ReturnLoader OBJLoader_new),
   with_scene (with_locked true (scene (prepareScene container)))
              (prepareScene container)).
Proof.
  apply loadObject_material_fetch_fails.
  - vm_compute. reflexivity.
  - vm_compute. reflexivity.
  - repeat constructor.
Defined.

(** *** The closures of [loadObj], one report at a time *)

Lemma observing_nil w : observing [] w = w.
Proof. destruct w. unfold observing. simpl. rewrite app_nil_r. reflexivity. Qed.

Lemma observing_observing a b w : observing b (observing a w) = observing (a ++ b) w.
Proof. unfold observing. simpl. rewrite app_assoc. reflexivity. Qed.

Lemma ObjRequest_run_app r evs evs' w :
  ObjRequest_run r (evs ++ evs') w = ObjRequest_run r evs' (ObjRequest_run r evs w).
Proof. unfold ObjRequest_run. apply foldl_app. Qed.

Lemma ObjRequest_run_cons r ev evs w :
  ObjRequest_run r (ev :: evs) w = ObjRequest_run r evs (exec (ObjRequest_deliver r ev) w).
Proof. reflexivity. Qed.

(** Progress reports only add "loading" notifications. *)
Lemma ObjRequest_run_progress tan objLoader url callback xhrs w :
  ObjRequest_run (loadObj tan objLoader url callback) (List.map Progress xhrs) w =
  observing (List.map (loading_notification w) xhrs) w.
Proof.
  revert w. induction xhrs as [|xhr xhrs IH]; intros w.
  - simpl. symmetry. apply observing_nil.
  - cbn [List.map]. rewrite ObjRequest_run_cons. unfold exec.
    rewrite onProgress_run. cbn [snd].
    rewrite IH, observing_observing. reflexivity.
Qed.

(** The error closure: one "error" notification, then the callback, if one
    was given, with the error.  The scene, its [locked] flag included, is not
    written.  The callback comes last, so that nothing is lost if it
    throws. *)
Lemma onError_run tan objLoader url callback err w :
  exec (ObjRequest_deliver (loadObj tan objLoader url callback) (Error err)) w =
  observing
    (Dispatched (element_id (element (scene w))) "error" (DetailError err)
     :: match callback with
        | Some cb => [Called cb (ArgError err)]
        | None => []
        end) w.
Proof.
  unfold exec, ObjRequest_deliver, loadObj, if_registered, mbind, JS_bind, get_scene.
  simpl. destruct callback as [cb|]; [|reflexivity].
  unfold call_if_given, observe, modify, observing, mbind, JS_bind. simpl.
  destruct (callback_throws cb (ArgError err)); simpl;
    rewrite <- app_assoc; reflexivity.
Qed.

Lemma worldBox_traverse f o :
  (forall n, THREE.worldBox (f n) = THREE.worldBox n) ->
  THREE.worldBox (THREE.traverse f o) = THREE.worldBox o.
Proof.
  intros Hf. destruct o as [t m p r mat i b kids]. simpl.
  specialize (Hf (THREE.Object3D_new t m p r mat i b kids)).
  destruct (f (THREE.Object3D_new t m p r mat i b kids)). exact Hf.
Qed.

Lemma worldBox_set_default_material material n :
  THREE.worldBox (set_default_material material n) = THREE.worldBox n.
Proof. unfold set_default_material. destruct (THREE.isMesh n); reflexivity. Qed.

Lemma worldBox_painted objLoader parsed :
  THREE.worldBox (painted objLoader parsed) = THREE.worldBox parsed.
Proof.
  unfold painted. destruct (materials objLoader); [reflexivity|].
  apply worldBox_traverse, worldBox_set_default_material.
Qed.

Lemma onLoad_until_lights tan objLoader url callback parsed w :
  let z := fit_distance tan (THREE.fov (camera (scene w)))
             (THREE.getSize (THREE.worldBox parsed)) in
  ObjRequest_deliver (loadObj tan objLoader url callback) (Load parsed) w =
  (light_position_set (keyLight (lights (scene w))) (THREE.set (- z) 0 z);;
   light_position_set (fillLight (lights (scene w))) (THREE.set z 0 z);;
   light_position_set (backLight (lights (scene w))) (THREE.set z 0 (- z));;
   modify_scene (with_locked false);;
   call_if_given callback (ArgObject (next_id w));;
   s ← get_scene;
   emitEvent (element s) "loaded" (DetailLoaded (next_id w)))
    (fitted tan objLoader parsed w).
Proof.
  intros z. unfold ObjRequest_deliver, loadObj. cbn [obj_onLoad].
  unfold fitted, painted, fitCameraToObject, resetObjectPosition.
  unfold mbind, JS_bind, alloc, get_scene, deref, modify_object, modify_scene, modify,
    Scene_add, mret, JS_ret, with_objects.
  destruct (materials objLoader) eqn:Hm; cbn -[light_position_set fit_distance];
    rewrite ?alter_insert_eq, !lookup_insert_eq; cbn -[light_position_set fit_distance];
    rewrite ?lookup_insert_eq; cbn -[light_position_set fit_distance];
    rewrite alter_insert_eq;
    unfold THREE.setFromObject;
    rewrite ?(worldBox_traverse _ _ (worldBox_set_default_material _)); fold z;
    unfold with_scene; cbn [objects next_id scene observed];
    (destruct (light_position_set (keyLight _) _ _) as [[|] ?]; [|reflexivity]);
    (destruct (light_position_set (fillLight _) _ _) as [[|] ?]; [|reflexivity]);
    (destruct (light_position_set (backLight _) _ _) as [[|] ?]; reflexivity).
Qed.

(** With no [keyLight] in [scene.lights] the completion closure ends in a
    TypeError at [lights.keyLight.position]: the assignments after the camera
    fit are never reached. *)
Lemma onLoad_without_keyLight tan objLoader url callback parsed w :
  keyLight (lights (scene w)) = None ->
  ObjRequest_deliver (loadObj tan objLoader url callback) (Load parsed) w =
  (Throw (TypeError "Cannot read properties of undefined (reading 'position')"),
   fitted tan objLoader parsed w).
Proof.
  intros Hk. rewrite onLoad_until_lights. unfold mbind, JS_bind. rewrite Hk.
  reflexivity.
Qed.

(** With the three directional lights in [scene.lights] it goes on: the
    lights are placed, the lock is cleared, the callback is called, and
    "loaded" is sent unless the callback threw. *)
Lemma onLoad_with_lights tan objLoader url callback parsed w k f b :
  keyLight (lights (scene w)) = Some k ->
  fillLight (lights (scene w)) = Some f ->
  backLight (lights (scene w)) = Some b ->
  let z := fit_distance tan (THREE.fov (camera (scene w)))
             (THREE.getSize (THREE.worldBox parsed)) in
  let w1 := fitted tan objLoader parsed w in
  exec (ObjRequest_deliver (loadObj tan objLoader url callback) (Load parsed)) w =
  observing
    (completion_observations callback (element_id (element (scene w))) (next_id w))
    {| objects :=
         alter (THREE.with_position (THREE.set z 0 (- z))) b
           (alter (THREE.with_position (THREE.set z 0 z)) f
              (alter (THREE.with_position (THREE.set (- z) 0 z)) k (objects w1)));
       next_id := next_id w1;
       scene := with_locked false (scene w1);
       observed := observed w1 |}.
Proof.
  intros Hk Hf Hb z w1. unfold exec. rewrite onLoad_until_lights. fold z.
  unfold mbind, JS_bind. rewrite Hk, Hf, Hb.
  unfold light_position_set, modify_object, modify_scene, modify, with_objects,
    with_scene, call_if_given, emitEvent, observe, modify, get_scene, observing,
    completion_observations, callback_returns, mbind, JS_bind, throw.
  destruct callback as [cb|]; cbn -[fit_distance]; [|reflexivity].
  destruct (callback_throws cb (ArgObject (next_id w))); cbn -[fit_distance];
    rewrite <- ?app_assoc; reflexivity.
Qed.

(** *** What [prepareScene] builds *)

Lemma prepareScene_scene el :
  children (scene (prepareScene el)) = [1; 2; 0] /\
  lights (scene (prepareScene el)) =
    {| keyLight := None; fillLight := None; backLight := None; ambient := Some 0 |} /\
  locked (scene (prepareScene el)) = false /\
  element (scene (prepareScene el)) = el /\
  THREE.fov (camera (scene (prepareScene el))) = 45%float /\
  next_id (prepareScene el) = 3 /\
  observed (prepareScene el) = [].
Proof. repeat split; reflexivity. Qed.

(** *** A whole load *)

Lemma omap_loading_notification w xhrs :
  omap eventName_of (List.map (loading_notification w) xhrs) =
  List.map (fun _ => "loading") xhrs.
Proof.
  induction xhrs as [|xhr xhrs IH]; [reflexivity|].
  change (omap eventName_of (List.map (loading_notification w) (xhr :: xhrs)))
    with ("loading" :: omap eventName_of (List.map (loading_notification w) xhrs)).
  rewrite IH. reflexivity.
Qed.

(** Without a material URL, on an unlocked session, [loadObject] sets
    [locked] and hands the three closures of [loadObj] to the mesh loader. *)
Lemma load_direct tan url materialUrl callback mtl_evs obj_evs w :
  locked (scene w) = false ->
  truthy materialUrl = false ->
  load tan url materialUrl callback mtl_evs obj_evs w =
  (Normal (ReturnLoader OBJLoader_new),
   ObjRequest_run (loadObj tan OBJLoader_new url callback) obj_evs
     (with_scene (with_locked true (scene w)) w)).
Proof.
  intros Hl Hm. unfold load, loadObject, mbind, JS_bind, get_scene.
  rewrite Hl. cbn -[truthy loadObj]. rewrite Hm. reflexivity.
Qed.

(** A load that fails in the mesh transport: the notifications are the
    "loading" ones, then one "error"; the session is left locked. *)
Lemma load_error_run tan url callback xhrs err w :
  locked (scene w) = false ->
  load tan url None callback [] (List.map Progress xhrs ++ [Error err]) w =
  (Normal (ReturnLoader OBJLoader_new),
   observing
     (List.map (loading_notification w) xhrs ++
      Dispatched (element_id (element (scene w))) "error" (DetailError err)
      :: match callback with
         | Some cb => [Called cb (ArgError err)]
         | None => []
         end)
     (with_scene (with_locked true (scene w)) w)).
Proof.
  intros Hl. rewrite load_direct by (exact Hl || reflexivity).
  rewrite ObjRequest_run_app, ObjRequest_run_progress.
  rewrite ObjRequest_run_cons, onError_run.
  unfold ObjRequest_run. cbn [foldl]. rewrite observing_observing. reflexivity.
Qed.

(** C1, at the failing completion path: a load whose mesh transport reports
    an error (after any progress reports) on a session that was unlocked
    leaves the session's [locked] flag true: the error closure sends its
    notification and calls the callback, and does not write the flag. *)
Theorem load_error_leaves_session_locked tan url callback xhrs err w :
  locked (scene w) = false ->
  locked (scene (snd (load tan url None callback []
                        (List.map Progress xhrs ++ [Error err]) w))) = true.
Proof. intros Hl. rewrite load_error_run by exact Hl. reflexivity. Qed.

Lemma load_error_leaves_session_locked_witness :
  locked (scene (snd (load tan_table "model.obj" None (Some (returning 1)) []
                        (List.map Progress [{| loaded := 10; total := 40 |}]
                         ++ [Error "404"])
                        (prepareScene container)))) = true.
Proof. apply load_error_leaves_session_locked. reflexivity. Defined.

(** C3, at a session built by [prepareScene]: when the mesh transport
    delivers the parsed graph, the completion closure stores it as object 3,
    adds it to the scene's children and moves the camera to the fitted
    distance, and then ends in a TypeError, because [scene.lights] of a
    prepared scene has no [keyLight].  The [locked] flag stays true, the
    callback is not called and no "loaded" notification is sent. *)
Theorem load_success_on_prepared_scene tan el url callback parsed :
  let w := exec (loadObject tan url None callback) (prepareScene el) in
  let size := THREE.getSize (THREE.worldBox parsed) in
  let z := (Math_max (Math_abs (THREE.y size / 2 * tan (45 * 2))) (THREE.z size)
            * 1.5)%float in
  let w' := snd (load tan url None callback [] [Load parsed] (prepareScene el)) in
  fst (ObjRequest_deliver (loadObj tan OBJLoader_new url callback) (Load parsed) w) =
    Throw (TypeError "Cannot read properties of undefined (reading 'position')") /\
  children (scene w') = [1; 2; 0; 3] /\
  THREE.z (THREE.camera_position (camera (scene w'))) = z /\
  locked (scene w') = true /\
  observed w' = [].
Proof.
  intros w size z w'. subst w w'.
  rewrite load_direct by reflexivity.
  rewrite ObjRequest_run_cons. unfold exec.
  rewrite !onLoad_without_keyLight by reflexivity.
  repeat split; reflexivity.
Qed.

(** C4, at a session built by [prepareScene]: a load whose mesh transport
    reports progress and then delivers the parsed graph sends the "loading"
    notifications and nothing after them: no "loaded" and no "error"
    notification ends the load, and the callback is not called. *)
Theorem load_success_on_prepared_scene_has_no_terminal tan el url callback xhrs parsed :
  let w' := snd (load tan url None callback []
                   (List.map Progress xhrs ++ [Load parsed]) (prepareScene el)) in
  observed w' = List.map (loading_notification (prepareScene el)) xhrs /\
  notifications w' = List.map (fun _ => "loading") xhrs.
Proof.
  intros w'. subst w'.
  rewrite load_direct by reflexivity.
  rewrite ObjRequest_run_app, ObjRequest_run_progress, ObjRequest_run_cons.
  unfold exec. rewrite onLoad_without_keyLight by reflexivity.
  cbn [snd ObjRequest_run foldl fitted observed observing with_scene app].
  split; [reflexivity|].
  unfold notifications.
  cbn [snd ObjRequest_run foldl fitted observed observing with_scene app].
  change (observed (prepareScene el)) with (@nil Observation).
  apply omap_loading_notification.
Qed.

(** C7, at a session built by [prepareScene] that holds a loaded object
    (object 3): the camera fit moves the camera to
    [max(|size.y / 2 * tan(fov * 2)|, size.z) * 1.5] with [fov = 45], and
    then ends in a TypeError at [lights.keyLight]; the two directional
    lights of the scene (objects 1 and 2) are not moved. *)
Theorem fitCameraToObject_on_prepared_scene tan el parsed :
  let w := exec (add_parsed parsed) (prepareScene el) in
  let size := THREE.getSize (THREE.worldBox parsed) in
  let z := (Math_max (Math_abs (THREE.y size / 2 * tan (45 * 2))) (THREE.z size)
            * 1.5)%float in
  let r := fitCameraToObject tan 3 (lights (scene w)) w in
  fst r = Throw (TypeError "Cannot read properties of undefined (reading 'position')") /\
  THREE.z (THREE.camera_position (camera (scene (snd r)))) = z /\
  objects (snd r) !! 1 = objects w !! 1 /\
  objects (snd r) !! 2 = objects w !! 2.
Proof.
  intros w size z r. subst w size z r.
  unfold fitCameraToObject, resetObjectPosition, mbind, JS_bind, get_scene, deref,
    modify_object, modify_scene, modify, with_objects.
  cbn -[fit_distance]. repeat split.
Qed.

(** ** The default material *)

Lemma Object3D_nested_ind (P : THREE.Object3D -> Prop) :
  (forall t m p r mat i b kids,
      Forall P kids -> P (THREE.Object3D_new t m p r mat i b kids)) ->
  forall o, P o.
Proof.
  intros H. fix IH 1. intros [t m p r mat i b kids]. apply H.
  induction kids as [|k kids IHk]; constructor; [apply IH|exact IHk].
Qed.

(** [traverse] visits the nodes in the order [nodes] lists them. *)
Lemma nodes_traverse f o :
  THREE.nodes (THREE.traverse f o) = List.map (THREE.traverse f) (THREE.nodes o).
Proof.
  induction o as [t m p r mat i b kids IH] using Object3D_nested_ind.
  assert (Hkids : List.map THREE.nodes (List.map (THREE.traverse f) kids) =
                  List.map (List.map (THREE.traverse f)) (List.map THREE.nodes kids)).
  { induction IH as [|k kids Hk _ IHkids]; [reflexivity|].
    cbn [List.map]. rewrite Hk, IHkids. reflexivity. }
  cbn [THREE.traverse].
  destruct (f (THREE.Object3D_new t m p r mat i b kids))
    as [t' m' p' r' mat' i' b' k'] eqn:Ef.
  cbn [THREE.nodes List.map]. f_equal.
  - cbn [THREE.traverse]. rewrite Ef. reflexivity.
  - rewrite Hkids, List.concat_map. reflexivity.
Qed.

Lemma material_traverse_default g n :
  THREE.material (THREE.traverse (set_default_material g) n) =
  if THREE.isMesh n then Some g else THREE.material n.
Proof. destruct n as [t [|] p r mat i b kids]; reflexivity. Qed.

Lemma isMesh_traverse_default g n :
  THREE.isMesh (THREE.traverse (set_default_material g) n) = THREE.isMesh n.
Proof. destruct n as [t [|] p r mat i b kids]; reflexivity. Qed.

Lemma paint_of_painted parsed :
  paint_of (painted OBJLoader_new parsed) =
  (List.map THREE.isMesh (THREE.nodes parsed),
   List.map (fun n => if THREE.isMesh n then Some grey else THREE.material n)
            (THREE.nodes parsed)).
Proof.
  unfold paint_of, painted. cbn [materials OBJLoader_new].
  rewrite nodes_traverse, !List.map_map. f_equal.
  - apply List.map_ext. intros n. apply isMesh_traverse_default.
  - apply List.map_ext. intros n. apply material_traverse_default.
Qed.

Lemma paint_of_with_position p o : paint_of (THREE.with_position p o) = paint_of o.
Proof. destruct o. reflexivity. Qed.

Lemma paint_of_centred b o : paint_of (centred b o) = paint_of o.
Proof. destruct o. reflexivity. Qed.

Lemma keeps_paint_bind {A B} (m : JS A) (k : A -> JS B) :
  keeps_paint m -> (forall a, keeps_paint (k a)) -> keeps_paint (m ≫= k).
Proof.
  intros Hm Hk w id. unfold mbind, JS_bind.
  specialize (Hm w id). destruct (m w) as [[a|e] w1]; cbn [snd] in *.
  - rewrite Hk. exact Hm.
  - exact Hm.
Qed.

Lemma keeps_paint_light_position_set member p : keeps_paint (light_position_set member p).
Proof.
  intros w id. destruct member as [l|]; [|reflexivity].
  cbn. rewrite lookup_alter. case_decide; [|reflexivity].
  subst. destruct (objects w !! id); [|reflexivity].
  cbn. rewrite paint_of_with_position. reflexivity.
Qed.

Lemma keeps_paint_modify_scene f : keeps_paint (modify_scene f).
Proof. intros w id. reflexivity. Qed.

Lemma keeps_paint_observe o : keeps_paint (observe o).
Proof. intros w id. reflexivity. Qed.

Lemma keeps_paint_call_if_given callback arg : keeps_paint (call_if_given callback arg).
Proof.
  destruct callback as [cb|]; intros w id; [|reflexivity].
  unfold call_if_given, mbind, JS_bind, observe, modify. cbn.
  destruct (callback_throws cb arg); reflexivity.
Qed.

Lemma keeps_paint_get_scene : keeps_paint get_scene.
Proof. intros w id. reflexivity. Qed.

(** Whether or not the completion closure runs to its end, the graph it
    stored carries the paint it was given before the camera fit. *)
Lemma onLoad_paint tan objLoader url callback parsed w :
  paint_of <$>
    (objects (exec (ObjRequest_deliver (loadObj tan objLoader url callback)
                      (Load parsed)) w) !! next_id w) =
  Some (paint_of (painted objLoader parsed)).
Proof.
  unfold exec. rewrite onLoad_until_lights.
  rewrite (keeps_paint_bind _ _ (keeps_paint_light_position_set _ _)).
  - unfold fitted. cbn [objects]. rewrite lookup_insert_eq. cbn.
    rewrite paint_of_centred. reflexivity.
  - intros _. apply keeps_paint_bind; [apply keeps_paint_light_position_set|].
    intros _. apply keeps_paint_bind; [apply keeps_paint_light_position_set|].
    intros _. apply keeps_paint_bind; [apply keeps_paint_modify_scene|].
    intros _. apply keeps_paint_bind; [apply keeps_paint_call_if_given|].
    intros _. apply keeps_paint_bind; [apply keeps_paint_get_scene|].
    intros s. apply keeps_paint_observe.
Qed.

(** C8, as stated, fails: the mesh node of [parsed_cube] has a material of
    its own, and a load without a material URL replaces it by the grey
    default. *)
Lemma load_repaints_mesh_counterexample :
  List.map THREE.isMesh (THREE.nodes parsed_cube) = [false; true] /\
  List.map THREE.material (THREE.nodes parsed_cube) =
    [None; Some (THREE.ParsedMaterial "default")] /\
  List.map THREE.material
    (default []
       (THREE.nodes <$>
          objects (snd (load tan_table "model.obj" None None [] [Load parsed_cube]
                          (prepareScene container))) !! 3)) =
    [None; Some (THREE.MeshPhongMaterial 0xbbbbcc)].
Proof. vm_compute. repeat split; reflexivity. Qed.

(** C8, amended: for every load called without a material URL on an unlocked
    session, once the mesh transport has delivered the parsed graph, the
    stored graph has the same nodes in the same order, every mesh node
    carries the grey default material (whatever material it had), and every
    other node carries what it carried. *)
Theorem load_without_material_repaints_every_mesh
    tan url materialUrl callback xhrs parsed w :
  locked (scene w) = false ->
  truthy materialUrl = false ->
  exists o,
    objects (snd (load tan url materialUrl callback []
                    (List.map Progress xhrs ++ [Load parsed]) w)) !! next_id w = Some o /\
    List.map THREE.isMesh (THREE.nodes o) = List.map THREE.isMesh (THREE.nodes parsed) /\
    List.map THREE.material (THREE.nodes o) =
    List.map (fun n => if THREE.isMesh n then Some grey else THREE.material n)
             (THREE.nodes parsed).
Proof.
  intros Hl Hm. rewrite load_direct by assumption. cbn [snd].
  rewrite ObjRequest_run_app, ObjRequest_run_progress, ObjRequest_run_cons.
  cbn [ObjRequest_run foldl].
  pose proof (onLoad_paint tan OBJLoader_new url callback parsed
                (observing (List.map (loading_notification
                                        (with_scene (with_locked true (scene w)) w)) xhrs)
                           (with_scene (with_locked true (scene w)) w))) as Hp.
  cbn [next_id observing with_scene] in Hp.
  destruct (objects _ !! next_id w) as [o|]; [|discriminate].
  exists o. split; [reflexivity|].
  change (Some (paint_of o) = Some (paint_of (painted OBJLoader_new parsed))) in Hp.
  assert (Hp' : paint_of o = paint_of (painted OBJLoader_new parsed)) by congruence.
  rewrite paint_of_painted in Hp'. unfold paint_of in Hp'.
  injection Hp' as H1 H2. split; assumption.
Qed.

Lemma load_without_material_repaints_every_mesh_witness :
  exists o,
    objects (snd (load tan_table "model.obj" None (Some (returning 1)) []
                    (List.map Progress [{| loaded := 10; total := 0 |}]
                     ++ [Load parsed_cube])
                    (prepareScene container))) !! next_id (prepareScene container)
      = Some o /\
    List.map THREE.isMesh (THREE.nodes o) =
      List.map THREE.isMesh (THREE.nodes parsed_cube) /\
    List.map THREE.material (THREE.nodes o) =
    List.map (fun n => if THREE.isMesh n then Some grey else THREE.material n)
             (THREE.nodes parsed_cube).
Proof.
  apply load_without_material_repaints_every_mesh; reflexivity.
Defined.

(** ** Sessions with a complete light set *)


(** There the camera fit places the three lights at the fitted distance. *)
Lemma fitCameraToObject_places_lights tan object o k f b amb w :
  objects w !! object = Some o ->
  lights (scene w) = {| keyLight := Some k; fillLight := Some f; backLight := Some b;
                        ambient := amb |} ->
  k <> f -> k <> b -> f <> b ->
  let z := (Math_max (Math_abs (THREE.y (THREE.getSize (THREE.worldBox o)) / 2
                                * tan (THREE.fov (camera (scene w)) * 2)))
                     (THREE.z (THREE.getSize (THREE.worldBox o))) * 1.5)%float in
  let r := fitCameraToObject tan object (lights (scene w)) w in
  fst r = Normal tt /\
  THREE.z (THREE.camera_position (camera (scene (snd r)))) = z /\
  THREE.position <$> (objects (snd r) !! k) =
    (fun _ => THREE.set (- z) 0 z) <$> (objects w !! k) /\
  THREE.position <$> (objects (snd r) !! f) =
    (fun _ => THREE.set z 0 z) <$> (objects w !! f) /\
  THREE.position <$> (objects (snd r) !! b) =
    (fun _ => THREE.set z 0 (- z)) <$> (objects w !! b).
Proof.
  intros Ho Hlights Hkf Hkb Hfb z r. subst r.
  unfold fitCameraToObject, resetObjectPosition, mbind, JS_bind, get_scene, deref,
    modify_object, modify_scene, modify, with_objects.
  rewrite Hlights, Ho. cbn -[fit_distance]. rewrite Ho. cbn -[fit_distance].
  split; [reflexivity|]. split; [reflexivity|].
  rewrite !lookup_alter.
  repeat case_decide; subst; try congruence;
    repeat split;
    repeat match goal with
           | |- context [objects w !! ?i] => destruct (objects w !! i)
           end; reflexivity.
Qed.

(** The unit fixture: a 2 x 2 x 2 cube loaded into [lit_scene]. *)
Example load_cube_into_lit_scene :
  let w' := snd (load tan_table "cube.obj" None (Some (returning 1)) []
                   [Progress {| loaded := 5; total := 0 |}; Load parsed_cube]
                   lit_scene) in
  children (scene w') = [1; 2; 0; 3; 4] /\
  locked (scene w') = false /\
  THREE.z (THREE.camera_position (camera (scene w'))) = 3%float /\
  observed w' = [Dispatched 7 "loading" (DetailLoading 0 100);
                 Called (returning 1) (ArgObject 4);
                 Dispatched 7 "loaded" (DetailLoaded 4)] /\
  THREE.position <$> (objects w' !! 3) = Some (THREE.Vector3_new (-3) 0 3) /\
  THREE.position <$> (objects w' !! 2) = Some (THREE.Vector3_new 3 0 3) /\
  THREE.position <$> (objects w' !! 1) = Some (THREE.Vector3_new 3 0 (-3)).
Proof. vm_compute. repeat split; reflexivity. Qed.

(** * Further properties *)

(** ** Scene clearing, on any scene *)

Lemma indexOf_lookup a l i : indexOf a l = Some i -> l !! i = Some a.
Proof.
  revert i. induction l as [|b l IH]; intros i; simpl; [discriminate|].
  destruct (Nat.eqb_spec b a) as [->|Hne].
  - intros [= <-]. reflexivity.
  - destruct (indexOf a l) as [j|]; [|discriminate].
    intros [= <-]. simpl. apply IH. reflexivity.
Qed.

Lemma indexOf_elem a l : a ∈ l -> is_Some (indexOf a l).
Proof.
  induction l as [|b l IH]; intros Hin; [inversion Hin|]. simpl.
  destruct (Nat.eqb_spec b a) as [->|Hne]; [eexists; reflexivity|].
  apply elem_of_cons in Hin as [->|Hin]; [congruence|].
  destruct (IH Hin) as [j ->]. eexists. reflexivity.
Qed.

Lemma splice1_sublist i l : splice1 i l `sublist_of` l.
Proof. unfold splice1. rewrite <- delete_take_drop. apply sublist_delete. Qed.

Lemma splice1_filter (P : nat -> Prop) `{forall x, Decision (P x)} i a l :
  l !! i = Some a -> ~ P a -> filter P (splice1 i l) = filter P l.
Proof.
  intros Hl Hna. unfold splice1.
  rewrite <- (take_drop_middle l i a Hl) at 3.
  rewrite !filter_app, (filter_cons_False _ a) by exact Hna. reflexivity.
Qed.

Lemma forEach_from_clear_frame n : forall k w,
  exists c,
    forEach_from n k clear_callback w =
      (Normal tt, with_scene (with_children c (scene w)) w) /\
    c `sublist_of` children (scene w) /\
    filter (fun o => is_group w o = false) c =
    filter (fun o => is_group w o = false) (children (scene w)).
Proof.
  induction n as [|n IH]; intros k w.
  - exists (children (scene w)). simpl.
    rewrite with_children_same by reflexivity. repeat split; reflexivity.
  - simpl. destruct (children (scene w) !! k) as [obj|] eqn:Hk; [|apply IH].
    unfold mbind, JS_bind, clear_callback at 1.
    destruct (is_group w obj) eqn:Hg; [|apply IH].
    unfold Scene_remove, modify_scene, modify.
    destruct (indexOf_elem obj (children (scene w))) as [i Hi].
    { apply list_elem_of_lookup. eauto. }
    rewrite Hi.
    set (w1 := with_scene
                 (with_children (splice1 i (children (scene w))) (scene w)) w).
    destruct (IH (S k) w1) as (c & Hrun & Hsub & Hfil).
    exists c. rewrite Hrun. split; [reflexivity|]. split.
    + etransitivity; [exact Hsub|]. apply splice1_sublist.
    + etransitivity; [exact Hfil|]. subst w1. simpl.
      apply (splice1_filter _ i obj); [apply indexOf_lookup; exact Hi|].
      change (is_group w obj <> false). rewrite Hg. discriminate.
Qed.

(** X1.  On every scene, [clearScene] completes normally and writes nothing
    but [scene.children]: the stored objects, the camera, the lights, the
    [locked] flag, the element and what was observed stay as they were.
    What it leaves as children is a sub-list of the old children, in the
    old order, that still holds every child whose type is not 'Group'. *)
Theorem clearScene_writes_children_only w :
  fst (clearScene w) = Normal tt /\
  objects (exec clearScene w) = objects w /\
  next_id (exec clearScene w) = next_id w /\
  observed (exec clearScene w) = observed w /\
  camera (scene (exec clearScene w)) = camera (scene w) /\
  lights (scene (exec clearScene w)) = lights (scene w) /\
  locked (scene (exec clearScene w)) = locked (scene w) /\
  element (scene (exec clearScene w)) = element (scene w) /\
  children (scene (exec clearScene w)) `sublist_of` children (scene w) /\
  filter (fun o => is_group w o = false) (children (scene (exec clearScene w))) =
  filter (fun o => is_group w o = false) (children (scene w)).
Proof.
  destruct (forEach_from_clear_frame (List.length (children (scene w))) 0 w)
    as (c & Hrun & Hsub & Hfil).
  unfold exec, clearScene, children_forEach. fold clear_callback.
  change (fun obj w0 => if is_group w0 obj then Scene_remove obj w0 else (Normal tt, w0))
    with clear_callback.
  rewrite Hrun. simpl. repeat split; assumption.
Qed.

(** ** Scene clearing, on distinct children *)

Lemma adjacent_groups_cons_non_group group a l :
  group a = false -> adjacent_groups group (a :: l) = adjacent_groups group l.
Proof.
  intros Ha. destruct l as [|b l]; [reflexivity|].
  cbn [adjacent_groups]. rewrite Ha. reflexivity.
Qed.

Lemma survivors_all_removed group l :
  Forall (fun o => group o = false) (survivors group l) <->
  adjacent_groups group l = false.
Proof.
  remember (List.length l) as n eqn:Hn.
  assert (Hle : List.length l <= n) by lia. clear Hn.
  revert l Hle. induction n as [|n IH]; intros l Hle.
  - destruct l; [|simpl in Hle; lia]. simpl. split; [reflexivity|constructor].
  - destruct l as [|a l]; [simpl; split; [reflexivity|constructor]|].
    simpl in Hle. destruct (group a) eqn:Ha.
    + destruct l as [|b l].
      * simpl. rewrite Ha. split; [reflexivity|constructor].
      * simpl in Hle. cbn [survivors]. rewrite Ha.
        change (adjacent_groups group (a :: b :: l))
          with ((group a && group b) || adjacent_groups group (b :: l)).
        rewrite Ha. cbn [andb].
        destruct (group b) eqn:Hb.
        -- cbn [orb]. split; [|discriminate].
           intros Hall. inversion Hall; congruence.
        -- cbn [orb].
           rewrite (adjacent_groups_cons_non_group group b l Hb).
           rewrite Forall_cons. rewrite (IH l) by lia. tauto.
    + cbn [survivors]. rewrite Ha.
      rewrite (adjacent_groups_cons_non_group group a l Ha).
      rewrite Forall_cons. rewrite (IH l) by lia. tauto.
Qed.

Lemma survivors_count_groups group l :
  2 * count_groups group (survivors group l) <= count_groups group l.
Proof.
  unfold count_groups.
  remember (List.length l) as n eqn:Hn.
  assert (Hle : List.length l <= n) by lia. clear Hn.
  revert l Hle. induction n as [|n IH]; intros l Hle.
  - destruct l; [simpl; lia|simpl in Hle; lia].
  - destruct l as [|a l]; [simpl; lia|]. simpl in Hle. cbn [survivors].
    destruct (group a) eqn:Ha.
    + rewrite (filter_cons_True _ a) by exact Ha.
      destruct l as [|b l]; [simpl; lia|]. simpl in Hle.
      specialize (IH l ltac:(lia)).
      rewrite !(filter_cons _ b). destruct (decide (group b = true)); simpl; lia.
    + rewrite !(filter_cons_False _ a) by congruence. apply IH. lia.
Qed.

(** X2.  In a scene whose children are distinct objects, one call of
    [clearScene] leaves no child of type 'Group' exactly when no two
    neighbouring children were both groups; in particular a scene with a
    single loaded group is cleared. *)
Theorem clearScene_clears_iff_no_adjacent_groups w :
  NoDup (children (scene w)) ->
  Forall (fun o => is_group w o = false) (children (scene (exec clearScene w))) <->
  adjacent_groups (is_group w) (children (scene w)) = false.
Proof.
  intros Hnd. unfold exec. rewrite (clearScene_survivors w Hnd). simpl.
  apply survivors_all_removed.
Qed.

Lemma clearScene_clears_iff_no_adjacent_groups_witness :
  Forall (fun o => is_group one_group o = false)
         (children (scene (exec clearScene one_group))) <->
  adjacent_groups (is_group one_group) (children (scene one_group)) = false.
Proof.
  apply clearScene_clears_iff_no_adjacent_groups.
  apply (bool_decide_unpack (NoDup _)). vm_compute. exact I.
Defined.

(** X3.  In a scene whose children are distinct objects, one call of
    [clearScene] leaves at most half of the groups. *)
Theorem clearScene_halves_groups w :
  NoDup (children (scene w)) ->
  2 * count_groups (is_group w) (children (scene (exec clearScene w))) <=
  count_groups (is_group w) (children (scene w)).
Proof.
  intros Hnd. unfold exec. rewrite (clearScene_survivors w Hnd). simpl.
  apply survivors_count_groups.
Qed.

Lemma clearScene_halves_groups_witness :
  2 * count_groups (is_group three_groups)
        (children (scene (exec clearScene three_groups))) <=
  count_groups (is_group three_groups) (children (scene three_groups)).
Proof.
  apply clearScene_halves_groups.
  apply (bool_decide_unpack (NoDup _)). vm_compute. exact I.
Defined.

(** ** One load after another *)

Lemma loadObject_unlocked tan url materialUrl callback w :
  locked (scene w) = false ->
  loadObject tan url materialUrl callback w =
  (Normal (ReturnLoader OBJLoader_new,
           if truthy materialUrl
           then StartedMtl (material_request tan url materialUrl callback)
           else StartedObj (loadObj tan OBJLoader_new url callback)),
   with_scene (with_locked true (scene w)) w).
Proof.
  intros Hl. unfold loadObject, mbind, JS_bind, get_scene. rewrite Hl.
  cbn -[truthy loadObj]. destruct (truthy materialUrl); reflexivity.
Qed.

Lemma loadObject_locks tan url materialUrl callback w :
  locked (scene (snd (loadObject tan url materialUrl callback w))) = true.
Proof.
  destruct (locked (scene w)) eqn:Hw.
  - unfold loadObject, mbind, JS_bind, get_scene. rewrite Hw. exact Hw.
  - rewrite loadObject_unlocked by exact Hw. reflexivity.
Qed.

(** X4.  Whatever the session, after a call of [loadObject] the session is
    locked, and a second call made before any transport reports returns
    [false], starts no loader and changes nothing. *)
Theorem loadObject_twice tan url materialUrl callback url' materialUrl' callback' w :
  locked (scene (snd (loadObject tan url materialUrl callback w))) = true /\
  loadObject tan url' materialUrl' callback'
             (snd (loadObject tan url materialUrl callback w)) =
  (Normal (ReturnFalse, StartedNothing), snd (loadObject tan url materialUrl callback w)).
Proof.
  pose proof (loadObject_locks tan url materialUrl callback w) as Hl.
  split; [exact Hl|].
  unfold loadObject at 1, mbind, JS_bind, get_scene. rewrite Hl. reflexivity.
Qed.

(** X5.  A load without a material URL on an unlocked session, whose mesh
    transport reports progress and then an error: what is observed is one
    "loading" notification per report, then one "error" notification
    carrying the error, then the call of the callback (if one was given)
    with the error, and nothing else; no "loaded" is sent.  The children,
    the camera and the stored objects are not written. *)
Theorem load_error_observations tan url materialUrl callback xhrs err w :
  locked (scene w) = false ->
  truthy materialUrl = false ->
  let w' := snd (load tan url materialUrl callback []
                   (List.map Progress xhrs ++ [Error err]) w) in
  observed w' =
    observed w ++ List.map (loading_notification w) xhrs ++
    Dispatched (element_id (element (scene w))) "error" (DetailError err)
    :: match callback with
       | Some cb => [Called cb (ArgError err)]
       | None => []
       end /\
  notifications w' =
    notifications w ++ List.map (fun _ => "loading") xhrs ++ ["error"] /\
  children (scene w') = children (scene w) /\
  camera (scene w') = camera (scene w) /\
  objects w' = objects w.
Proof.
  intros Hl Hm w'. subst w'. rewrite load_direct by assumption. cbn [snd].
  rewrite ObjRequest_run_app, ObjRequest_run_progress.
  rewrite ObjRequest_run_cons, onError_run.
  unfold ObjRequest_run. cbn [foldl]. rewrite observing_observing.
  unfold notifications. cbn [observed observing with_scene scene objects].
  split; [reflexivity|]. split; [|repeat split; reflexivity].
  rewrite !omap_app, omap_loading_notification.
  destruct callback; reflexivity.
Qed.

Lemma load_error_observations_witness :
  let w' := snd (load tan_table "model.obj" None (Some (returning 1)) []
                   (List.map Progress [{| loaded := 10; total := 40 |}]
                    ++ [Error "404"]) lit_scene) in
  observed w' =
    observed lit_scene ++
    List.map (loading_notification lit_scene) [{| loaded := 10; total := 40 |}] ++
    Dispatched (element_id (element (scene lit_scene))) "error" (DetailError "404")
    :: [Called (returning 1) (ArgError "404")] /\
  notifications w' =
    notifications lit_scene ++
    List.map (fun _ => "loading") [{| loaded := 10; total := 40 |}] ++ ["error"] /\
  children (scene w') = children (scene lit_scene) /\
  camera (scene w') = camera (scene lit_scene) /\
  objects w' = objects lit_scene.
Proof. apply (load_error_observations tan_table); reflexivity. Defined.

(** X6.  After a load that failed in the mesh transport, every further load
    on that session is rejected: it returns [false] and changes nothing,
    whatever its transports would report. *)
Theorem load_after_error_is_rejected
    tan url callback xhrs err url' materialUrl' callback' mtl_evs obj_evs w :
  locked (scene w) = false ->
  let w1 := snd (load tan url None callback []
                   (List.map Progress xhrs ++ [Error err]) w) in
  load tan url' materialUrl' callback' mtl_evs obj_evs w1 = (Normal ReturnFalse, w1).
Proof.
  intros Hl w1. subst w1. rewrite load_error_run by exact Hl. cbn [snd].
  unfold load, loadObject, mbind, JS_bind, get_scene. reflexivity.
Qed.

Lemma load_after_error_is_rejected_witness :
  let w1 := snd (load tan_table "model.obj" None None []
                   (List.map Progress [] ++ [Error "404"]) lit_scene) in
  load tan_table "again.obj" None None [] [Load parsed_cube] w1 = (Normal ReturnFalse, w1).
Proof. apply (load_after_error_is_rejected tan_table). reflexivity. Defined.

(** ** Loads on a session with a complete light set *)



(** X18.  On such a session, when the callback throws on being called with
    the loaded object: the callback call is the last thing observed, no
    "loaded" notification is sent, and yet the graph is a child of the
    scene and the session is unlocked. *)
Theorem load_success_with_throwing_callback tan url cb xhrs parsed w k f b :
  locked (scene w) = false ->
  keyLight (lights (scene w)) = Some k ->
  fillLight (lights (scene w)) = Some f ->
  backLight (lights (scene w)) = Some b ->
  callback_throws cb (ArgObject (next_id w)) = true ->
  let w1 := snd (load tan url None (Some cb) []
                   (List.map Progress xhrs ++ [Load parsed]) w) in
  observed w1 =
    observed w ++ List.map (loading_notification w) xhrs ++
    [Called cb (ArgObject (next_id w))] /\
  notifications w1 = notifications w ++ List.map (fun _ => "loading") xhrs /\
  locked (scene w1) = false /\
  next_id w ∈ children (scene w1).
Proof.
  intros Hl Hk Hf Hb Hthrow w1. subst w1.
  rewrite load_direct by (exact Hl || reflexivity). cbn [snd].
  rewrite ObjRequest_run_app, ObjRequest_run_progress, ObjRequest_run_cons.
  rewrite (onLoad_with_lights _ _ _ _ _ _ k f b) by assumption.
  unfold completion_observations, callback_returns.
  cbn [next_id observing with_scene scene element with_locked] in *. rewrite Hthrow.
  cbn -[fit_distance]. rewrite <- !app_assoc.
  split; [reflexivity|]. split; [|split; [reflexivity|]].
  - unfold notifications. cbn [observed].
    rewrite !omap_app, omap_loading_notification. cbn. rewrite app_nil_r. reflexivity.
  - apply elem_of_app. right. left.
Qed.

Lemma load_success_with_throwing_callback_witness :
  let w1 := snd (load tan_table "cube.obj" None (Some (throwing 1)) []
                   (List.map Progress [{| loaded := 5; total := 0 |}]
                    ++ [Load parsed_cube]) lit_scene) in
  observed w1 =
    observed lit_scene ++
    List.map (loading_notification lit_scene) [{| loaded := 5; total := 0 |}] ++
    [Called (throwing 1) (ArgObject (next_id lit_scene))] /\
  notifications w1 =
    notifications lit_scene ++
    List.map (fun _ => "loading") [{| loaded := 5; total := 0 |}] /\
  locked (scene w1) = false /\
  next_id lit_scene ∈ children (scene w1).
Proof.
  apply (load_success_with_throwing_callback tan_table "cube.obj" (throwing 1)
           [{| loaded := 5; total := 0 |}] parsed_cube lit_scene 3 2 1);
    reflexivity.
Defined.

(** X8.  On such a session, with the three lights distinct stored objects
    and the object counter fresh, a successful load leaves the key, fill
    and back lights at (-z, 0, z), (z, 0, z) and (z, 0, -z), where z is the
    z coordinate the camera was moved to. *)
Theorem load_places_lights_at_camera_distance
    tan url callback xhrs parsed w k f b lk lf lb :
  locked (scene w) = false ->
  keyLight (lights (scene w)) = Some k ->
  fillLight (lights (scene w)) = Some f ->
  backLight (lights (scene w)) = Some b ->
  k <> f -> k <> b -> f <> b ->
  objects w !! k = Some lk ->
  objects w !! f = Some lf ->
  objects w !! b = Some lb ->
  objects w !! next_id w = None ->
  let w1 := snd (load tan url None callback []
                   (List.map Progress xhrs ++ [Load parsed]) w) in
  let z := THREE.z (THREE.camera_position (camera (scene w1))) in
  THREE.position <$> (objects w1 !! k) = Some (THREE.Vector3_new (- z) 0 z) /\
  THREE.position <$> (objects w1 !! f) = Some (THREE.Vector3_new z 0 z) /\
  THREE.position <$> (objects w1 !! b) = Some (THREE.Vector3_new z 0 (- z)).
Proof.
  intros Hl Hk Hf Hb Hkf Hkb Hfb Hok Hof Hob Hfresh w1 z. subst z w1.
  assert (Hkn : next_id w <> k) by congruence.
  assert (Hfn : next_id w <> f) by congruence.
  assert (Hbn : next_id w <> b) by congruence.
  rewrite load_direct by (exact Hl || reflexivity). cbn [snd].
  rewrite ObjRequest_run_app, ObjRequest_run_progress, ObjRequest_run_cons.
  rewrite (onLoad_with_lights _ _ _ _ _ _ k f b) by assumption.
  cbn -[fit_distance completion_observations].
  repeat split.
  - rewrite lookup_alter_ne, lookup_alter_ne, lookup_alter_eq, lookup_insert_ne
      by congruence.
    rewrite Hok. reflexivity.
  - rewrite lookup_alter_ne, lookup_alter_eq, lookup_alter_ne, lookup_insert_ne
      by congruence.
    rewrite Hof. reflexivity.
  - rewrite lookup_alter_eq, lookup_alter_ne, lookup_alter_ne, lookup_insert_ne
      by congruence.
    rewrite Hob. reflexivity.
Qed.

Lemma load_places_lights_at_camera_distance_witness :
  let w1 := snd (load tan_table "cube.obj" None None []
                   (List.map Progress [] ++ [Load parsed_cube]) lit_scene) in
  let z := THREE.z (THREE.camera_position (camera (scene w1))) in
  THREE.position <$> (objects w1 !! 3) = Some (THREE.Vector3_new (- z) 0 z) /\
  THREE.position <$> (objects w1 !! 2) = Some (THREE.Vector3_new z 0 z) /\
  THREE.position <$> (objects w1 !! 1) = Some (THREE.Vector3_new z 0 (- z)).
Proof.
  apply (load_places_lights_at_camera_distance tan_table "cube.obj" None []
           parsed_cube lit_scene 3 2 1
           (THREE.light "DirectionalLight" 0.5 (THREE.set (-100) 0 100))
           (THREE.light "DirectionalLight" 0.05 (THREE.set 100 0 100))
           (THREE.light "DirectionalLight" 0.05
              (THREE.normalize (THREE.set 100 0 (-100)))));
    try reflexivity; try (intros H; discriminate H).
Defined.

(** ** Loads with a material URL *)

Lemma MtlRequest_run_completes tan url materialUrl callback pre mc obj_evs w :
  Forall (fun ev => completes ev = false) pre ->
  MtlRequest_run (material_request tan url materialUrl callback)
                 (pre ++ [Load mc]) obj_evs w =
  ObjRequest_run (loadObj tan (setMaterials (preload mc) OBJLoader_new) url callback)
                 obj_evs w.
Proof.
  intros Hpre. induction Hpre as [|ev pre Hev _ IH]; [reflexivity|].
  destruct ev as [xhr|m|err]; simpl in *; [exact IH|discriminate|exact IH].
Qed.

(** X9.  A load with a material URL on an unlocked session, whose material
    transport completes and whose mesh transport then delivers the parsed
    graph: the graph is stored with the nodes and the materials the parser
    gave it; the grey default is not applied. *)
Theorem load_with_material_keeps_materials
    tan url m callback pre mc xhrs parsed w :
  locked (scene w) = false ->
  truthy (Some m) = true ->
  Forall (fun ev => completes ev = false) pre ->
  exists o,
    objects (snd (load tan url (Some m) callback (pre ++ [Load mc])
                    (List.map Progress xhrs ++ [Load parsed]) w)) !! next_id w = Some o /\
    List.map THREE.isMesh (THREE.nodes o) = List.map THREE.isMesh (THREE.nodes parsed) /\
    List.map THREE.material (THREE.nodes o) = List.map THREE.material (THREE.nodes parsed).
Proof.
  intros Hl Hm Hpre. unfold load. rewrite loadObject_unlocked by exact Hl.
  rewrite Hm. cbn [snd drive].
  rewrite MtlRequest_run_completes by exact Hpre.
  rewrite ObjRequest_run_app, ObjRequest_run_progress, ObjRequest_run_cons.
  cbn [ObjRequest_run foldl].
  pose proof (onLoad_paint tan (setMaterials (preload mc) OBJLoader_new) url callback
                parsed
                (observing (List.map (loading_notification
                                        (with_scene (with_locked true (scene w)) w)) xhrs)
                           (with_scene (with_locked true (scene w)) w))) as Hp.
  cbn [next_id observing with_scene] in Hp.
  destruct (objects _ !! next_id w) as [o|]; [|discriminate].
  exists o. split; [reflexivity|].
  assert (Hp' : paint_of o = paint_of parsed) by (unfold painted in Hp; cbn in Hp; congruence).
  unfold paint_of in Hp'. injection Hp' as H1 H2. split; assumption.
Qed.

Lemma load_with_material_keeps_materials_witness :
  exists o,
    objects (snd (load tan_table "model.obj" (Some "model.mtl") None
                    ([Progress {| loaded := 1; total := 2 |}]
                     ++ [Load {| source := "model.mtl"; preloaded := false |}])
                    (List.map Progress [] ++ [Load parsed_cube])
                    (prepareScene container))) !! next_id (prepareScene container)
      = Some o /\
    List.map THREE.isMesh (THREE.nodes o) =
      List.map THREE.isMesh (THREE.nodes parsed_cube) /\
    List.map THREE.material (THREE.nodes o) =
      List.map THREE.material (THREE.nodes parsed_cube).
Proof.
  apply (load_with_material_keeps_materials tan_table).
  - reflexivity.
  - reflexivity.
  - repeat constructor.
Defined.

(** ** Sessions built by [prepareScene], under any use *)

Lemma clearScene_run w :
  exists c,
    clearScene w = (Normal tt, with_scene (with_children c (scene w)) w) /\
    c `sublist_of` children (scene w).
Proof.
  destruct (forEach_from_clear_frame (List.length (children (scene w))) 0 w)
    as (c & Hrun & Hsub & _).
  exists c. split; [exact Hrun|exact Hsub].
Qed.

Lemma well_formed_fitted tan objLoader parsed w :
  well_formed w -> well_formed (fitted tan objLoader parsed w).
Proof.
  intros (Hnd & Hstored & Hbelow). unfold well_formed, fitted. cbn -[fit_distance].
  repeat split.
  - apply NoDup_app. split; [exact Hnd|]. split; [|apply NoDup_singleton].
    intros x Hx Hn. apply list_elem_of_singleton in Hn. subst x.
    specialize (Hbelow _ (Hstored _ Hx)). lia.
  - intros obj Hin. apply lookup_insert_is_Some.
    apply elem_of_app in Hin as [Hin|Hin].
    + destruct (decide (next_id w = obj)); [left; assumption|right].
      split; [assumption|apply Hstored; exact Hin].
    + apply list_elem_of_singleton in Hin. left. congruence.
  - intros obj Hs. apply lookup_insert_is_Some in Hs as [<-|[_ Hs]]; [lia|].
    specialize (Hbelow _ Hs). lia.
Qed.

Lemma prepared_observing os w :
  Forall (fun o => reports_no_completion o = true) os ->
  prepared w -> prepared (observing os w).
Proof.
  intros Hos (Hwf & Hk & Hobs). repeat split; try apply Hwf; [exact Hk|].
  unfold observing. cbn. apply Forall_app. split; assumption.
Qed.

Lemma prepared_deliver tan objLoader url callback ev w :
  prepared w ->
  prepared (exec (ObjRequest_deliver (loadObj tan objLoader url callback) ev) w).
Proof.
  intros Hp. destruct ev as [xhr|parsed|err].
  - unfold exec. rewrite onProgress_run. cbn [snd].
    apply prepared_observing; [|exact Hp]. repeat constructor.
  - destruct Hp as (Hwf & Hk & Hobs). unfold exec.
    rewrite onLoad_without_keyLight by exact Hk. cbn [snd].
    split; [apply well_formed_fitted; exact Hwf|]. split; [exact Hk|exact Hobs].
  - rewrite onError_run. apply prepared_observing; [|exact Hp].
    destruct callback; repeat constructor.
Qed.

Lemma locked_deliver tan objLoader url callback ev w :
  keyLight (lights (scene w)) = None ->
  locked (scene (exec (ObjRequest_deliver (loadObj tan objLoader url callback) ev) w)) =
  locked (scene w).
Proof.
  intros Hk. destruct ev as [xhr|parsed|err].
  - unfold exec. rewrite onProgress_run. reflexivity.
  - unfold exec. rewrite onLoad_without_keyLight by exact Hk. reflexivity.
  - rewrite onError_run. reflexivity.
Qed.

Lemma prepared_clearScene w : prepared w -> prepared (exec clearScene w).
Proof.
  intros ((Hnd & Hstored & Hbelow) & Hk & Hobs).
  destruct (clearScene_run w) as (c & Hrun & Hsub).
  unfold exec. rewrite Hrun. cbn [snd].
  repeat split; cbn; try assumption.
  - apply (sublist_NoDup c (children (scene w))); assumption.
  - intros obj Hin. apply Hstored. apply (elem_of_sublist c); assumption.
Qed.

Lemma prepared_loadObject tan url materialUrl callback w :
  prepared w ->
  prepared (snd (loadObject tan url materialUrl callback w)) /\
  request_of_module tan
    (match fst (loadObject tan url materialUrl callback w) with
     | Normal (_, s) => s
     | Throw _ => StartedNothing
     end).
Proof.
  intros Hp. destruct (locked (scene w)) eqn:Hl.
  - unfold loadObject, mbind, JS_bind, get_scene. rewrite Hl. split; [exact Hp|exact I].
  - rewrite loadObject_unlocked by exact Hl. cbn [fst snd]. split.
    + destruct Hp as (Hwf & Hk & Hobs). repeat split; try apply Hwf; assumption.
    + destruct (truthy materialUrl); cbn; eauto.
Qed.

Lemma prepared_page_react tan i p :
  prepared_page tan p -> prepared_page tan (react tan i p).
Proof.
  intros [Hp Hreq].
  destruct i as [url materialUrl callback| |n ev|n ev|position]; cbn [react];
    [| | | |split; [|exact Hreq]; destruct Hp as (Hwf & Hk & Hobs);
            repeat split; try apply Hwf; assumption].
  - destruct (prepared_loadObject tan url materialUrl callback (session p) Hp)
      as [Hp' Hr].
    destruct (loadObject tan url materialUrl callback (session p)) as [[[ret s]|e] w'];
      cbn [fst snd] in *.
    + destruct s; split; cbn; try assumption;
        (apply Forall_app; split; [assumption|constructor; [assumption|constructor]]).
    + split; assumption.
  - split; [apply prepared_clearScene; exact Hp|exact Hreq].
  - destruct (started p !! n) as [[|r|r]|] eqn:Hn; try (split; assumption).
    assert (Hr : request_of_module tan (StartedObj r)).
    { eapply Forall_lookup_1; eassumption. }
    destruct Hr as (l & url & cb & ->).
    split; [apply prepared_deliver; exact Hp|exact Hreq].
  - destruct (started p !! n) as [[|r|r]|] eqn:Hn; try (split; assumption).
    assert (Hr : request_of_module tan (StartedMtl r)).
    { eapply Forall_lookup_1; eassumption. }
    destruct Hr as (url & mu & cb & ->).
    destruct ev as [xhr|m|err]; cbn.
    + split; assumption.
    + split; [exact Hp|]. apply Forall_app. split; [exact Hreq|].
      constructor; [|constructor]. cbn. eauto.
    + split; assumption.
Qed.

Lemma prepared_prepareScene el : prepared (prepareScene el).
Proof.
  split; [|split; [reflexivity|constructor]].
  split; [|split].
  - change (children (scene (prepareScene el))) with [1; 2; 0].
    apply (bool_decide_unpack (NoDup _)). vm_compute. exact I.
  - change (children (scene (prepareScene el))) with [1; 2; 0].
    intros obj Hin.
    repeat (apply elem_of_cons in Hin as [->|Hin]); [..|inversion Hin];
      eexists; reflexivity.
  - intros obj Hs.
    change (next_id (prepareScene el)) with 3.
    destruct (decide (obj < 3)) as [|Hge]; [assumption|exfalso].
    unfold prepareScene, exec, setLights, mbind, JS_bind, alloc in Hs. cbn in Hs.
    rewrite !lookup_insert_ne in Hs by lia.
    rewrite lookup_empty in Hs. destruct Hs as [? Hs]. discriminate Hs.
Qed.

Lemma prepared_page_after tan el inputs : prepared_page tan (page_after tan el inputs).
Proof.
  unfold page_after.
  assert (H0 : prepared_page tan {| session := prepareScene el; started := [] |}).
  { split; [apply prepared_prepareScene|constructor]. }
  revert H0. generalize {| session := prepareScene el; started := [] |}.
  induction inputs as [|i inputs IH]; intros p Hp; [exact Hp|].
  cbn [foldl]. apply IH. apply prepared_page_react. exact Hp.
Qed.

Lemma locked_react tan i p :
  prepared_page tan p ->
  locked (scene (session p)) = true ->
  locked (scene (session (react tan i p))) = true.
Proof.
  intros [Hp Hreq] Hl.
  destruct i as [url materialUrl callback| |n ev|n ev|position]; cbn [react];
    [| | | |exact Hl].
  - unfold loadObject, mbind, JS_bind, get_scene. rewrite Hl. exact Hl.
  - destruct (clearScene_run (session p)) as (c & Hrun & _).
    unfold exec. rewrite Hrun. exact Hl.
  - destruct (started p !! n) as [[|r|r]|] eqn:Hn; try assumption.
    assert (Hr : request_of_module tan (StartedObj r)).
    { eapply Forall_lookup_1; eassumption. }
    destruct Hr as (l & url & cb & ->). cbn [session].
    rewrite locked_deliver; [exact Hl|apply Hp].
  - destruct (started p !! n) as [[|r|r]|] eqn:Hn; try assumption.
    assert (Hr : request_of_module tan (StartedMtl r)).
    { eapply Forall_lookup_1; eassumption. }
    destruct Hr as (url & mu & cb & ->).
    destruct ev as [xhr|m|err]; cbn; exact Hl.
Qed.

Lemma locked_foldl_react tan inputs : forall p,
  prepared_page tan p ->
  locked (scene (session p)) = true ->
  locked (scene (session (foldl (fun p i => react tan i p) p inputs))) = true.
Proof.
  induction inputs as [|i inputs IH]; intros p Hp Hl; [exact Hl|].
  cbn [foldl]. apply IH; [apply prepared_page_react; exact Hp|].
  apply locked_react; assumption.
Qed.

(** X10.  In a session built by [prepareScene], after any series of
    [loadObject] and [clearScene] calls and of transport reports, in any
    order: the children of the scene are distinct objects, every child is a
    stored object, and no stored object has an id the counter has not
    passed. *)
Theorem prepared_session_well_formed tan el inputs :
  well_formed (session (page_after tan el inputs)).
Proof. apply (prepared_page_after tan el inputs). Qed.

(** X11.  In a session built by [prepareScene], once [loadObject] has been
    called the session stays locked for ever: whatever calls and transport
    reports came before and come after, in any order, the [locked] flag is
    true, so that every later [loadObject] is rejected. *)
Theorem prepared_session_locked_for_ever tan el before url materialUrl callback after :
  locked (scene (session
    (page_after tan el (before ++ InLoadObject url materialUrl callback :: after)))) = true.
Proof.
  unfold page_after. rewrite foldl_app. cbn [foldl].
  fold (page_after tan el before).
  apply locked_foldl_react.
  - apply prepared_page_react, prepared_page_after.
  - cbn [react].
    pose proof (loadObject_locks tan url materialUrl callback
                  (session (page_after tan el before))) as H.
    destruct (loadObject tan url materialUrl callback (session (page_after tan el before)))
      as [[[ret []]|e] w']; cbn [snd session] in *; exact H.
Qed.

(** X12.  In a session built by [prepareScene], whatever the calls and the
    transport reports: no "loaded" notification is ever sent and the
    caller's callback is never called with a loaded object. *)
Theorem prepared_session_never_reports_completion tan el inputs :
  Forall (fun o => reports_no_completion o = true)
         (observed (session (page_after tan el inputs))).
Proof. apply (prepared_page_after tan el inputs). Qed.

(** ** Resize *)

Lemma resize_resize s1 e1 s2 e2 v :
  resize s2 e2 (resize s1 e1 v) = resize s2 e2 v.
Proof. reflexivity. Qed.

Lemma resized_snoc events e v :
  resized (events ++ [e]) v = onWindowResize (fst e) (snd e) (resized events v).
Proof. unfold resized. rewrite foldl_app. reflexivity. Qed.

Lemma resize_resized s e events v :
  resize s e (resized events v) = resize s e v.
Proof.
  induction events as [|[now later] events IH] using rev_ind; [reflexivity|].
  rewrite resized_snoc. unfold onWindowResize. rewrite !resize_resize. exact IH.
Qed.

(** X13.  After any series of resize events the viewer is what one run of
    [resize] on the last snapshot (the one the timer saw) makes of the
    viewer as it was before the series: earlier events leave no trace. *)
Theorem resized_last_wins events now later v :
  resized (events ++ [(now, later)]) v = resize (fst later) (snd later) v.
Proof.
  rewrite resized_snoc. unfold onWindowResize. cbn [fst snd].
  rewrite resize_resize. apply resize_resized.
Qed.

Lemma resized_frame events : forall v,
  let v' := resized events v in
  objects (world v') = objects (world v) /\
  next_id (world v') = next_id (world v) /\
  observed (world v') = observed (world v) /\
  children (scene (world v')) = children (scene (world v)) /\
  lights (scene (world v')) = lights (scene (world v)) /\
  locked (scene (world v')) = locked (scene (world v)) /\
  element (scene (world v')) = element (scene (world v)) /\
  THREE.fov (camera (scene (world v'))) = THREE.fov (camera (scene (world v))) /\
  THREE.near (camera (scene (world v'))) = THREE.near (camera (scene (world v))) /\
  THREE.far (camera (scene (world v'))) = THREE.far (camera (scene (world v))) /\
  THREE.camera_position (camera (scene (world v'))) =
    THREE.camera_position (camera (scene (world v))) /\
  pixelRatio (renderer v') = pixelRatio (renderer v).
Proof.
  induction events as [|e events IH] using rev_ind; intros v v'; subst v'.
  - repeat split; reflexivity.
  - destruct e as [now later]. rewrite resized_snoc. apply (IH v).
Qed.

Lemma prepareViewer_aspect window el :
  THREE.aspect (camera (scene (world (prepareViewer window el)))) =
  (renderer_width (renderer (prepareViewer window el)) /
   renderer_height (renderer (prepareViewer window el)))%float.
Proof. reflexivity. Qed.

(** X14.  From a viewer whose camera aspect is the quotient of the
    renderer's width and height, as it is when [prepareScene] has built it,
    after any series of resize events the aspect is again the quotient of
    the renderer's width and height, and the events have written nothing
    else of the session: the field of view, the near and far planes, the
    camera's position, the renderer's pixel ratio, the scene's children,
    lights and [locked] flag, the stored objects and the observations are
    those of the viewer before the series. *)
Theorem resized_keeps_aspect_and_session events v :
  THREE.aspect (camera (scene (world v))) =
    (renderer_width (renderer v) / renderer_height (renderer v))%float ->
  let v' := resized events v in
  THREE.aspect (camera (scene (world v'))) =
    (renderer_width (renderer v') / renderer_height (renderer v'))%float /\
  THREE.fov (camera (scene (world v'))) = THREE.fov (camera (scene (world v))) /\
  THREE.near (camera (scene (world v'))) = THREE.near (camera (scene (world v))) /\
  THREE.far (camera (scene (world v'))) = THREE.far (camera (scene (world v))) /\
  THREE.camera_position (camera (scene (world v'))) =
    THREE.camera_position (camera (scene (world v))) /\
  pixelRatio (renderer v') = pixelRatio (renderer v) /\
  children (scene (world v')) = children (scene (world v)) /\
  lights (scene (world v')) = lights (scene (world v)) /\
  locked (scene (world v')) = locked (scene (world v)) /\
  objects (world v') = objects (world v) /\
  observed (world v') = observed (world v).
Proof.
  intros Hv v'.
  pose proof (resized_frame events v) as H. cbv zeta in H. fold v' in H.
  destruct H as (Ho & _ & Hobs & Hc & Hli & Hlo & _ & Hfov & Hnear & Hfar & Hpos & Hpr).
  split; [|repeat split; assumption].
  subst v'. destruct events as [|e events _] using rev_ind; [exact Hv|].
  destruct e as [now later]. rewrite resized_snoc. reflexivity.
Qed.

Lemma resized_keeps_aspect_and_session_witness :
  let v := prepareViewer windowed container in
  let v' := resized [((fullscreen, container), (windowed, container))] v in
  THREE.aspect (camera (scene (world v'))) =
    (renderer_width (renderer v') / renderer_height (renderer v'))%float /\
  THREE.fov (camera (scene (world v'))) = THREE.fov (camera (scene (world v))) /\
  THREE.near (camera (scene (world v'))) = THREE.near (camera (scene (world v))) /\
  THREE.far (camera (scene (world v'))) = THREE.far (camera (scene (world v))) /\
  THREE.camera_position (camera (scene (world v'))) =
    THREE.camera_position (camera (scene (world v))) /\
  pixelRatio (renderer v') = pixelRatio (renderer v) /\
  children (scene (world v')) = children (scene (world v)) /\
  lights (scene (world v')) = lights (scene (world v)) /\
  locked (scene (world v')) = locked (scene (world v)) /\
  objects (world v') = objects (world v) /\
  observed (world v') = observed (world v).
Proof.
  apply (resized_keeps_aspect_and_session
           [((fullscreen, container), (windowed, container))]
           (prepareViewer windowed container)).
  apply prepareViewer_aspect.
Defined.

(** X15.  In a window that is not at the origin of the screen, a resize
    event that finds the container at the size it had when the scene was
    prepared leaves the viewer exactly as [prepareScene] built it. *)
Theorem resize_windowed_after_prepare window window' el :
  falsy (screenTop window') && falsy (screenY window') = false ->
  onWindowResize (window', el) (window', el) (prepareViewer window el) =
  prepareViewer window el.
Proof.
  intros Hw. unfold onWindowResize, resize. cbn [fst snd]. rewrite Hw.
  reflexivity.
Qed.

Lemma resize_windowed_after_prepare_witness :
  onWindowResize (windowed, container) (windowed, container)
                 (prepareViewer fullscreen container) =
  prepareViewer fullscreen container.
Proof. apply resize_windowed_after_prepare. reflexivity. Defined.

(** ** Fullscreen *)

(** X16.  [goFullScreen] returns [true] exactly when the host has the
    webkit API and [false] exactly when it has neither API; it asks for
    fullscreen at most once, on the given element, and not at all when the
    host has neither API; it dispatches the synthetic "resize" event exactly
    when it took the webkit branch, so a host with the moz API alone gets
    the request, the host's own return value and no resize event. *)
Theorem goFullScreen_host_calls document el :
  (fst (goFullScreen document el) = FullScreenTrue <->
     webkitCancelFullScreen document = true) /\
  (fst (goFullScreen document el) = FullScreenFalse <->
     webkitCancelFullScreen document = false /\ mozCancelFullScreen document = false) /\
  (snd (goFullScreen document el) = [] <->
     webkitCancelFullScreen document = false /\ mozCancelFullScreen document = false) /\
  (WindowDispatchEvent "resize" ∈ snd (goFullScreen document el) <->
     webkitCancelFullScreen document = true) /\
  filter (fun c => is_fullscreen_request c = true) (snd (goFullScreen document el)) =
    (if webkitCancelFullScreen document then [WebkitRequestFullScreen (element_id el)]
     else if mozCancelFullScreen document then [MozRequestFullScreen (element_id el)]
     else []).
Proof.
  unfold goFullScreen.
  destruct (webkitCancelFullScreen document), (mozCancelFullScreen document);
    cbn [fst snd]; repeat split; intros; try discriminate; try assumption;
    try tauto; try (intuition discriminate).
  all: try (right; left).
  all: try match goal with
       | H : _ ∈ [] |- _ => inversion H
       | H : _ ∈ [_] |- _ => apply list_elem_of_singleton in H; discriminate H
       end.
Qed.

(** ** Nothing to clear *)

Lemma forEach_from_no_group n : forall k w,
  Forall (fun o => is_group w o = false) (children (scene w)) ->
  forEach_from n k clear_callback w = (Normal tt, w).
Proof.
  induction n as [|n IH]; intros k w Hall; [reflexivity|].
  simpl. destruct (children (scene w) !! k) as [obj|] eqn:Hk; [|apply IH; exact Hall].
  unfold mbind, JS_bind, clear_callback at 1.
  rewrite (proj1 (Forall_lookup _ _) Hall k obj Hk). apply IH. exact Hall.
Qed.

(** X17.  On a scene none of whose children has type 'Group' (a scene just
    prepared, or already cleared), [clearScene] completes normally and
    leaves the whole session as it was. *)
Theorem clearScene_without_groups w :
  Forall (fun o => is_group w o = false) (children (scene w)) ->
  clearScene w = (Normal tt, w).
Proof.
  intros Hall. unfold clearScene, children_forEach.
  apply (forEach_from_no_group _ 0 w Hall).
Qed.

Lemma clearScene_without_groups_witness :
  clearScene (prepareScene container) = (Normal tt, prepareScene container).
Proof.
  apply clearScene_without_groups.
  change (children (scene (prepareScene container))) with [1; 2; 0].
  repeat constructor.
Defined.

(** ** An empty parse result *)

(** The box of a graph without geometry is empty and has size zero, so the
    camera fit puts the camera at distance 0. *)
Example load_empty_graph :
  THREE.getSize empty_box = THREE.Vector3_new 0 0 0 /\
  THREE.z (THREE.camera_position
             (camera (scene (snd (load tan_table "empty.obj" None None []
                                    [Load parsed_empty] (prepareScene container))))))
  = 0%float /\
  THREE.z (THREE.camera_position
             (camera (scene (snd (load tan_table "empty.obj" None None []
                                    [Load parsed_empty] lit_scene)))))
  = 0%float.
Proof. vm_compute. repeat split; reflexivity. Qed.
